(** * ts-to-rls-demo: the policy tester component and the type-snapshot script

  A shallow embedding of [src/components/RLSTester.tsx] (the React
  component that runs a user snippet against the ts-to-rls builders) and
  of [scripts/copy-types.js] (the build step that snapshots the type
  declarations), with the properties of the specification stated and
  settled against them.

  Conventions.
  - JavaScript strings are [string]; a JS string used as a condition is
    truthy exactly when it is not empty.
  - A React state setter called in an event handler queues an update; the
    handler reads the state of the render it closed over.  A handler is a
    function from that rendered state to the list of updates it queues,
    and [dispatch] applies the queue in order.
  - The JavaScript engine that runs [new Function(..., input)(...)] is a
    parameter: every theorem about [executeCode] holds for every engine.
  - Time is a logical clock in milliseconds; a timer fires when the clock
    reaches its deadline. *)

From Stdlib Require Import ZArith NArith Ascii String List Bool Lia.
From stdpp Require Import gmap strings list fin_maps.
Import ListNotations.

Local Open Scope string_scope.

(** ** JavaScript values and completions *)

Module Js.

(** The values a snippet can return or throw, as far as the component
    looks at them: [typeof], [instanceof Error] and [.message]. *)
Inductive Value : Type :=
| VUndefined
| VNull
| VBoolean (b : bool)
| VNumber (n : Z)
| VString (s : string)
| VError (message : string)            (* an instance of Error *)
| VObject (message : option string)    (* not an Error; its message property, if any *)
| VFunction (name : string).

(** The [typeof] operator. *)
Definition typeof (v : Value) : string :=
  match v with
  | VUndefined => "undefined"
  | VNull => "object"
  | VBoolean _ => "boolean"
  | VNumber _ => "number"
  | VString _ => "string"
  | VError _ => "object"
  | VObject _ => "object"
  | VFunction _ => "function"
  end.

(** [v instanceof Error]. *)
Definition instanceof_Error (v : Value) : bool :=
  match v with
  | VError _ => true
  | _ => false
  end.

(** How a call ends: with a returned value or with a thrown one. *)
Inductive Completion : Type :=
| Returned (v : Value)
| Threw (v : Value).

(** Truthiness of a string: [if (s)], [s ? a : b], [s || d], [s && x]. *)
Definition truthy (s : string) : bool :=
  match s with
  | EmptyString => false
  | String _ _ => true
  end.

(** [new Function(p1, ..., pn, body)] followed by the call of the
    function on the arguments, as one completion (a body that does not
    parse makes the constructor throw a SyntaxError). *)
Definition Engine : Type := list string -> string -> list Value -> Completion.

(** The line feed and carriage return characters. *)
Definition LF : string := String (ascii_of_nat 10) EmptyString.
Definition CR : string := String (ascii_of_nat 13) EmptyString.

(** [s.startsWith(p)], returning what follows the prefix. *)
Fixpoint strip_prefix (p s : string) : option string :=
  match p, s with
  | EmptyString, _ => Some s
  | String a p', String b s' => if Ascii.eqb a b then strip_prefix p' s' else None
  | String _ _, EmptyString => None
  end.

(** The two wide line separators, U+2028 and U+2029, as they stand in a
    UTF-8 text. *)
Definition LS : string :=
  String (ascii_of_nat 226) (String (ascii_of_nat 128) (String (ascii_of_nat 168) EmptyString)).
Definition PS : string :=
  String (ascii_of_nat 226) (String (ascii_of_nat 128) (String (ascii_of_nat 169) EmptyString)).

(** The line terminator a text starts with, if it starts with one, and
    what follows it.  ECMAScript's line terminators are LF, CR, U+2028 and
    U+2029: [^] and [$] match around them under the [m] flag, and [.] does
    not match them. *)
Definition terminator (s : string) : option (string * string) :=
  match s with
  | EmptyString => None
  | String c rest =>
      if (Ascii.eqb c (ascii_of_nat 10) || Ascii.eqb c (ascii_of_nat 13))%bool
      then Some (String c EmptyString, rest)
      else match rest with
           | String c1 (String c2 rest2) =>
               if (Ascii.eqb c (ascii_of_nat 226) && Ascii.eqb c1 (ascii_of_nat 128) &&
                   (Ascii.eqb c2 (ascii_of_nat 168) || Ascii.eqb c2 (ascii_of_nat 169)))%bool
               then Some (String c (String c1 (String c2 EmptyString)), rest2)
               else None
           | _ => None
           end
  end.

(** A character put in front of the first line. *)
Definition carry_char (c : ascii) (ls : list (string * string)) : list (string * string) :=
  match ls with
  | (line, term) :: more => (String c line, term) :: more
  | [] => [(String c EmptyString, EmptyString)]
  end.

(** The lines of a text and the terminator that ends each (nothing for
    the last line). *)
Fixpoint split_lines (s : string) : list (string * string) :=
  match s with
  | EmptyString => [(EmptyString, EmptyString)]
  | String c rest =>
      if (Ascii.eqb c (ascii_of_nat 10) || Ascii.eqb c (ascii_of_nat 13))%bool
      then (EmptyString, String c EmptyString) :: split_lines rest
      else match rest with
           | String c1 (String c2 rest2) =>
               if (Ascii.eqb c (ascii_of_nat 226) && Ascii.eqb c1 (ascii_of_nat 128) &&
                   (Ascii.eqb c2 (ascii_of_nat 168) || Ascii.eqb c2 (ascii_of_nat 169)))%bool
               then (EmptyString, String c (String c1 (String c2 EmptyString)))
                      :: split_lines rest2
               else carry_char c (split_lines rest)
           | _ => carry_char c (split_lines rest)
           end
  end.

(** No line terminator starts inside [line], [t] being the text that
    follows it. *)
Fixpoint unbroken (line t : string) : bool :=
  match line with
  | EmptyString => true
  | String c line' =>
      match terminator (String c (line' ++ t)) with
      | Some _ => false
      | None => unbroken line' t
      end
  end.

(** A text that is one line: it holds no line terminator. *)
Definition no_terminator (line : string) : bool := unbroken line EmptyString.

Definition join_lines (ls : list (string * string)) : string :=
  fold_right (fun lt acc => fst lt ++ snd lt ++ acc) EmptyString ls.

End Js.

(** ** The component: state, handlers, rendering *)

Module RLSTester.
Import Js.

(** The four [useState] cells of the component. *)
Record Session : Type := mkSession {
  input : string;
  output : string;
  error : string;
  copied : bool
}.

(** A queued state update, one constructor per setter. *)
Inductive Update : Type :=
| setInput (s : string)
| setOutput (s : string)
| setError (s : string)
| setCopied (b : bool).

Definition apply_update (st : Session) (u : Update) : Session :=
  match u with
  | setInput s => mkSession s (output st) (error st) (copied st)
  | setOutput s => mkSession (input st) s (error st) (copied st)
  | setError s => mkSession (input st) (output st) s (copied st)
  | setCopied b => mkSession (input st) (output st) (error st) b
  end.

Definition apply_updates (us : list Update) (st : Session) : Session :=
  fold_left apply_update us st.

(** Run a handler on the rendered state and commit what it queued. *)
Definition dispatch (handler : Session -> list Update) (st : Session) : Session :=
  apply_updates (handler st) st.

Definition EXAMPLE_CODE : string :=
"const policy = createPolicy('user_documents')
  .on('documents')
  .read()
  .when(column('user_id').isOwner());

return policy.toSQL();".

(** An entry of the example catalog. *)
Record Example : Type := mkExample {
  name : string;
  code : string
}.

Definition EXAMPLES : list Example :=
[
  mkExample "User Ownership"
"const policy = createPolicy('user_documents')
  .on('documents')
  .read()
  .when(column('user_id').isOwner());

return policy.toSQL();";
  mkExample "Multi-Tenant"
"const policy = createPolicy('tenant_isolation')
  .on('tenant_data')
  .all()
  .requireAll()
  .when(column('tenant_id').belongsToTenant());

return policy.toSQL();";
  mkExample "Owner or Member"
"const policy = createPolicy('project_access')
  .on('projects')
  .read()
  .when(
    column('user_id').isOwner()
      .or(
        column('id').in(
          from('project_members')
            .select('project_id')
            .where(column('user_id').eq(auth.uid()))
        )
      )
  );

return policy.toSQL();";
  mkExample "Complex OR"
"const policy = createPolicy('project_access')
  .on('projects')
  .read()
  .when(
    column('is_public').isPublic()
      .or(column('user_id').isOwner())
      .or(column('organization_id').eq(session.get('app.org_id', 'uuid')))
  );

return policy.toSQL();";
  mkExample "With Indexes"
"const policy = createPolicy('user_documents')
  .on('documents')
  .read()
  .when(column('user_id').isOwner());

return policy.toSQL({ includeIndexes: true });";
  mkExample "INSERT Validation"
"const policy = createPolicy('user_documents_insert')
  .on('user_documents')
  .write()
  .allow(column('user_id').isOwner());

return policy.toSQL();";
  mkExample "UPDATE with Check"
"const policy = createPolicy('user_documents_update')
  .on('user_documents')
  .update()
  .allow(column('user_id').isOwner());

return policy.toSQL();";
  mkExample "Template"
"const [policy] = policies.userOwned('documents', 'SELECT');

return policy.toSQL();";
  mkExample "DELETE Policy"
"const policy = createPolicy('user_documents_delete')
  .on('documents')
  .delete()
  .when(column('user_id').isOwner());

return policy.toSQL();";
  mkExample "Pattern Matching"
"const policy = createPolicy('search_documents')
  .on('documents')
  .read()
  .when(
    column('title').ilike('%report%')
      .or(column('category').like('Finance%'))
  );

return policy.toSQL();";
  mkExample "Null Checks"
"const policy = createPolicy('active_documents')
  .on('documents')
  .read()
  .when(
    column('deleted_at').isNull()
      .and(column('published_at').isNotNull())
  );

return policy.toSQL();";
  mkExample "Public Access Template"
"const policy = policies.publicAccess('documents');

return policy.toSQL();";
  mkExample "Role-Based Access"
"const [policy] = policies.roleAccess('admin_data', 'admin', ['SELECT', 'UPDATE']);

return policy.toSQL();";
  mkExample "Helper Methods"
"const policy = createPolicy('document_access')
  .on('documents')
  .read()
  .when(
    column('user_id').isOwner()
      .or(column('is_public').isPublic())
  );

return policy.toSQL();"
].

(** The state of the first render. *)
Definition initial : Session := mkSession EXAMPLE_CODE EmptyString EmptyString false.

(** *** The editor's ambient declarations *)

(** The text of the second virtual document, [file:///globals.d.ts]. *)
Definition globalDeclarations : string :=
"
      import type * as RLS from 'ts-to-rls';

      declare global {
        const createPolicy: typeof RLS.createPolicy;
        const column: typeof RLS.column;
        const auth: typeof RLS.auth;
        const session: typeof RLS.session;
        const currentUser: typeof RLS.currentUser;
        const from: typeof RLS.from;
        const hasRole: typeof RLS.hasRole;
        const alwaysTrue: typeof RLS.alwaysTrue;
        const call: typeof RLS.call;
        const policies: typeof RLS.policies;
      }
    ".

Fixpoint trim_start (s : string) : string :=
  match s with
  | String c rest => if Ascii.eqb c " "%char then trim_start rest else s
  | EmptyString => s
  end.

Fixpoint take_until (stop : ascii) (s : string) : string :=
  match s with
  | String c rest => if Ascii.eqb c stop then EmptyString else String c (take_until stop rest)
  | EmptyString => EmptyString
  end.

(** The names a declarations document introduces with [const NAME: ...;],
    in the order of the text. *)
Definition declared_constants (doc : string) : list string :=
  omap (fun lt => match strip_prefix "const " (trim_start (fst lt)) with
                  | Some rest => Some (take_until ":"%char rest)
                  | None => None
                  end)
       (split_lines doc).

(** *** executeCode *)

(** The parameter names given to [new Function], in order. *)
Definition Function_params : list string :=
  ["createPolicy"; "column"; "auth"; "session"; "from"; "currentUser"; "policies"].

(** The names the editor declares as ambient constants, and the names
    bound in the scope of the snippet. *)
Definition ambient_names : gset string :=
  list_to_set (declared_constants globalDeclarations).

Definition scope_names : gset string := list_to_set Function_params.

(** The exports of the ts-to-rls module: the builders that snippets call
    are functions, the others are objects whose methods are called. *)
Definition RLS (export : string) : Value :=
  if (String.eqb export "auth" || String.eqb export "session" || String.eqb export "policies")%bool
  then VObject None else VFunction export.

(** The arguments of the call, in order. *)
Definition Function_args : list Value :=
  [RLS "createPolicy"; RLS "column"; RLS "auth"; RLS "session";
   RLS "from"; RLS "currentUser"; RLS "policies"].

Definition CONTRACT_MESSAGE : string := "Code must return a string (use policy.toSQL())".
Definition FALLBACK_MESSAGE : string := "An error occurred".

(** The message shown for a caught value:
    [err instanceof Error ? err.message : 'An error occurred']. *)
Definition caught_message (err : Value) : string :=
  match err with
  | VError message => message
  | _ => FALLBACK_MESSAGE
  end.

Section Executor.
Variable engine : Engine.

(** The updates [executeCode] queues.  [setError('')] runs first, inside
    the [try], before the function is built and called. *)
Definition executeCode_updates (st : Session) : list Update :=
  setError EmptyString ::
  match engine Function_params (input st) Function_args with
  | Returned (VString result) => [setOutput result]
  | Returned _ => [setError CONTRACT_MESSAGE]
  | Threw err => [setError (caught_message err); setOutput EmptyString]
  end.

Definition executeCode (st : Session) : Session :=
  dispatch executeCode_updates st.

End Executor.

(** *** loadExample and the editor's onChange *)

Definition loadExample_updates (code : string) (_ : Session) : list Update :=
  [setInput code; setOutput EmptyString; setError EmptyString].

Definition loadExample (code : string) (st : Session) : Session :=
  dispatch (loadExample_updates code) st.

(** [(value) => setInput(value || '')]; the editor passes [undefined]
    when it has no value. *)
Definition onChange_updates (value : option string) (_ : Session) : list Update :=
  [setInput (match value with
             | Some v => if truthy v then v else EmptyString
             | None => EmptyString
             end)].

Definition onChange (value : option string) (st : Session) : Session :=
  dispatch (onChange_updates value) st.

(** *** Rendering of the result panel *)

(** What the right-hand panel shows:
    [error ? <error box> : output ? <read-only editor> : <placeholder>]. *)
Inductive Panel : Type :=
| ErrorBox (message : string)
| GeneratedSql (text : string)
| Placeholder.

Definition render_panel (st : Session) : Panel :=
  if truthy (error st) then ErrorBox (error st)
  else if truthy (output st) then GeneratedSql (output st)
  else Placeholder.

(** The copy button is rendered under [output && (...)]. *)
Definition copy_button_shown (st : Session) : bool := truthy (output st).

(** *** The copy action, the clipboard and the timer *)

(** The component in its host: the rendered state, the clock, the
    deadlines of the pending timers in the order they were set (the only
    callback the component ever schedules is [() => setCopied(false)]),
    and the texts handed to [navigator.clipboard.writeText] so far. *)
Record World : Type := mkWorld {
  session : Session;
  clock : N;
  timers : list N;
  writeText_calls : list string
}.

Definition boot : World := mkWorld initial 0%N [] [].

(** Commit a handler's updates in the world. *)
Definition commit (us : list Update) (w : World) : World :=
  mkWorld (apply_updates us (session w)) (clock w) (timers w) (writeText_calls w).

(** A synchronous handler run in the world. *)
Definition handle (handler : Session -> Session) (w : World) : World :=
  mkWorld (handler (session w)) (clock w) (timers w) (writeText_calls w).

(** [setTimeout(() => setCopied(false), delay)]. *)
Definition setTimeout_reset (delay : N) (w : World) : World :=
  mkWorld (session w) (clock w) (timers w ++ [(clock w + delay)%N]) (writeText_calls w).

(** Let [d] milliseconds pass with no event from the user: the timers
    whose deadline is reached fire and are dropped. *)
Definition advance (d : N) (w : World) : World :=
  let now := (clock w + d)%N in
  let due := List.filter (fun t => (t <=? now)%N) (timers w) in
  let pending := List.filter (fun t => negb (t <=? now)%N) (timers w) in
  mkWorld (apply_updates (map (fun _ => setCopied false) due) (session w))
          now pending (writeText_calls w).

(** How the promise of [writeText] settles. *)
Inductive Settlement : Type :=
| Resolves (after : N)
| Rejects.

(** [copyToClipboard] up to its [await]: the guard [if (output)] and the
    call of [writeText]; [true] when the function is suspended there. *)
Definition copyToClipboard_begin (w : World) : World * bool :=
  if truthy (output (session w))
  then (mkWorld (session w) (clock w) (timers w)
                (writeText_calls w ++ [output (session w)]), true)
  else (w, false).

(** [copyToClipboard] after its [await]:
    [setCopied(true); setTimeout(() => setCopied(false), 2000)]. *)
Definition copyToClipboard_resume (w : World) : World :=
  setTimeout_reset 2000 (commit [setCopied true] w).

Definition copyToClipboard (settles : Settlement) (w : World) : World :=
  match copyToClipboard_begin w with
  | (w', true) =>
      match settles with
      | Resolves after => copyToClipboard_resume (advance after w')
      | Rejects => w'
      end
  | (w', false) => w'
  end.

(** *** Engines for concrete runs *)

(** The completions of a few fixed bodies under ECMAScript ([new Error()]
    has the empty message); any other body is taken to end without a
    [return]. *)
Definition scenario_engine : Engine := fun _ body _ =>
  if String.eqb body "return 'X';" then Returned (VString "X")
  else if String.eqb body "return 42;" then Returned (VNumber 42)
  else if String.eqb body "throw new Error('bad column');" then Threw (VError "bad column")
  else if String.eqb body "throw new Error();" then Threw (VError EmptyString)
  else if String.eqb body "throw 'bad column';" then Threw (VString "bad column")
  else if String.eqb body "throw { message: 'bad column' };" then Threw (VObject (Some "bad column"))
  else Returned VUndefined.

End RLSTester.

(** ** The type-snapshot script, [scripts/copy-types.js] *)

Module CopyTypes.
Import Js.

(** *** The host: files, console, errors *)

Inductive Stream : Type := Log | Warn | Err.

(** The calls of the host that can fail. *)
Inductive Syscall : Type :=
| sys_open (path : string)
| sys_write (path : string)
| sys_copyfile (src dest : string).

(** An error thrown by an [fs] function; the script reads its
    [message] only. *)
Record FsError : Type := mkFsError {
  message : string
}.

(** The machine the script runs on.
    - [disk]: the files and the bytes they hold.
    - [unwritable], [unreadable]: the paths that cannot be opened for
      writing or for reading (permissions, a missing directory, a
      read-only file system, ...); a call that fails there changes no
      file.
    - [residue]: the paths where a write starts and then fails (a full
      disk, an I/O error), with what the failed write leaves behind: some
      text, or no file.
    - [console]: what was printed.
    - [decode]: what reading bytes as UTF-8 makes of them, written as
      UTF-8 again: the text itself when it is valid, with U+FFFD in the
      place of bytes that are not.
    - [thrown]: the error the host throws when a call fails; its message
      is the host's. *)
Record Machine : Type := mkMachine {
  disk : gmap string string;
  unwritable : gset string;
  unreadable : gset string;
  console : list (Stream * string);
  residue : gmap string (option string);
  decode : string -> string;
  thrown : Syscall -> FsError
}.

Definition with_disk (d : gmap string string) (m : Machine) : Machine :=
  mkMachine d (unwritable m) (unreadable m) (console m) (residue m) (decode m) (thrown m).

Definition with_console (c : list (Stream * string)) (m : Machine) : Machine :=
  mkMachine (disk m) (unwritable m) (unreadable m) c (residue m) (decode m) (thrown m).

(** A computation of the script: it changes the machine and returns a
    value or throws. *)
Definition Script (A : Type) : Type := Machine -> Machine * (FsError + A).

#[export] Instance Script_ret : MRet Script :=
  fun _ x m => (m, inr x).

#[export] Instance Script_bind : MBind Script :=
  fun _ _ f s m =>
    match s m with
    | (m', inr x) => f x m'
    | (m', inl e) => (m', inl e)
    end.

(** The call fails: the host's error for it is thrown. *)
Definition throw {A : Type} (call : Syscall) : Script A :=
  fun m => (m, inl (thrown m call)).

Definition print (to : Stream) (text : string) : Script unit :=
  fun m => (with_console (console m ++ [(to, text)]) m, inr tt).

Definition put_file (path content : string) : Script unit :=
  fun m => (with_disk (<[path := content]> (disk m)) m, inr tt).

(** What a write that failed half-way leaves at [path]. *)
Definition leave (path : string) (remains : option string) (d : gmap string string)
  : gmap string string :=
  match remains with
  | Some text => <[path := text]> d
  | None => delete path d
  end.

(** [existsSync] never throws. *)
Definition existsSync (path : string) : Script bool :=
  fun m => (m, inr (bool_decide (is_Some (disk m !! path)))).

(** [readFileSync(path, 'utf-8')]: the bytes of the file, decoded. *)
Definition readFileSync (path : string) : Script string :=
  fun m =>
    match disk m !! path with
    | None => throw (sys_open path) m
    | Some bytes =>
        if bool_decide (path ∈ unreadable m) then throw (sys_open path) m
        else (m, inr (decode m bytes))
    end.

(** [writeFileSync(path, content)]: the file is opened, then written.  A
    text is held here as its UTF-8 bytes, which are what gets written. *)
Definition writeFileSync (path content : string) : Script unit :=
  fun m =>
    if bool_decide (path ∈ unwritable m) then throw (sys_open path) m
    else match residue m !! path with
         | Some remains =>
             (with_disk (leave path remains (disk m)) m, inl (thrown m (sys_write path)))
         | None => put_file path content m
         end.

(** [copyFileSync(src, dst)]: the bytes of [src] become those of [dst],
    undecoded; every failure is reported as one of [copyfile]. *)
Definition copyFileSync (src dst : string) : Script unit :=
  fun m =>
    match disk m !! src with
    | None => throw (sys_copyfile src dst) m
    | Some bytes =>
        if (bool_decide (src ∈ unreadable m) || bool_decide (dst ∈ unwritable m))%bool
        then throw (sys_copyfile src dst) m
        else match residue m !! dst with
             | Some remains =>
                 (with_disk (leave dst remains (disk m)) m, inl (thrown m (sys_copyfile src dst)))
             | None => put_file dst bytes m
             end
    end.

(** [path.join] on a directory and a relative path. *)
Definition join (dir rel : string) : string := dir ++ "/" ++ rel.

(** *** The two replacements that inline the declarations *)

Fixpoint last_is (c : ascii) (s : string) : bool :=
  match s with
  | EmptyString => false
  | String a EmptyString => Ascii.eqb a c
  | String _ rest => last_is c rest
  end.

(** [s] is [.+;] up to the end of the line. *)
Definition some_then_semicolon (s : string) : bool :=
  (2 <=? String.length s)%nat && last_is ";"%char s.

(** Some position of [s] starts [ from .+;] up to the end of the line. *)
Fixpoint from_clause_within (s : string) : bool :=
  match strip_prefix " from " s with
  | Some t => some_then_semicolon t
  | None => false
  end
  || match s with
     | String _ rest => from_clause_within rest
     | EmptyString => false
     end.

(** [line] is one line, and [/^import .+ from .+;$/m] matches it. *)
Definition import_line (line : string) : bool :=
  no_terminator line &&
  match strip_prefix "import " line with
  | Some (String _ rest) => from_clause_within rest
  | _ => false
  end.

(** [line] is one line, and [/^export \* from .+;$/m] matches it. *)
Definition export_star_line (line : string) : bool :=
  no_terminator line &&
  match strip_prefix "export * from " line with
  | Some t => some_then_semicolon t
  | None => false
  end.

(** [content.replace(re, '')] for a [gm] expression that matches whole
    lines: the matched lines become empty, their terminators stay. *)
Definition blank_lines (matched : string -> bool) (content : string) : string :=
  join_lines (map (fun lt => (if matched (fst lt) then EmptyString else fst lt, snd lt))
                  (split_lines content)).

Definition inline_content (content : string) : string :=
  blank_lines export_star_line (blank_lines import_line content).

(** *** The script *)

Section Script.
Variable projectRoot : string.

Definition sourcePath : string := join projectRoot "node_modules/rls-dsl/dist/bundle.d.ts".
Definition targetPath : string := join projectRoot "src/rls-dsl-types.d.ts".
Definition indexPath : string := join projectRoot "node_modules/rls-dsl/dist/index.d.ts".
Definition distDir : string := join projectRoot "node_modules/rls-dsl/dist".

Definition files : list string :=
  ["types.d.ts"; "column.d.ts"; "context.d.ts"; "sql.d.ts"; "subquery-builder.d.ts";
   "policy-builder.d.ts"; "validation.d.ts"; "composition.d.ts"; "index.d.ts"].

Definition banner : string := "// Auto-generated type definitions for rls-dsl" ++ LF ++ LF.

Definition fallback : string :=
  "// Fallback type definitions" ++ LF ++ "export * from 'rls-dsl';" ++ LF.

(** The [for (const file of files)] loop, [combined] being the text
    accumulated so far. *)
Fixpoint combine (rest : list string) (combined : string) : Script string :=
  match rest with
  | [] => mret combined
  | file :: rest' =>
      let filePath := join distDir file in
      present ← existsSync filePath;
      if (present : bool)
      then content ← readFileSync filePath;
           combine rest' (combined ++ inline_content content ++ LF ++ LF)
      else combine rest' combined
  end.

(** The body of the [try]. *)
Definition try_body : Script unit :=
  bundled ← existsSync sourcePath;
  if (bundled : bool)
  then copyFileSync sourcePath targetPath;;
       print Log "✓ Copied rls-dsl type definitions"
  else print Warn "⚠ bundle.d.ts not found, generating from index.d.ts";;
       indexed ← existsSync indexPath;
       if (indexed : bool)
       then combined ← combine files banner;
            writeFileSync targetPath combined;;
            print Log "✓ Generated rls-dsl type definitions from source files"
       else writeFileSync targetPath fallback;;
            print Log "✓ Created fallback type definitions".

(** How the process ends. *)
Inductive Termination : Type :=
| RanToEnd
| ProcessExit (status : Z)
| Uncaught (e : FsError).

(** The exit status the build sees: 0 when the module runs to its end,
    the argument of [process.exit], 1 for an uncaught exception. *)
Definition exit_status (t : Termination) : Z :=
  match t with
  | RanToEnd => 0
  | ProcessExit status => status
  | Uncaught _ => 1
  end.

(** A module body run with nothing around it. *)
Definition run_bare (body : Script unit) (m : Machine) : Machine * Termination :=
  match body m with
  | (m', inr _) => (m', RanToEnd)
  | (m', inl e) => (m', Uncaught e)
  end.

(** The script: the [try] body, and the [catch] that reports and calls
    [process.exit(0)]. *)
Definition copy_types (m : Machine) : Machine * Termination :=
  match try_body m with
  | (m', inr _) => (m', RanToEnd)
  | (m', inl e) =>
      (fst (print Err ("Error copying types: " ++ message e) m'), ProcessExit 0)
  end.

(** The text the loop produces when every read succeeds, [d] giving the
    decoded text of each file: the banner, then each listed file that
    exists, inlined and followed by two line feeds. *)
Definition combined_text (d : gmap string string) : string :=
  fold_left (fun acc file =>
               match d !! join distDir file with
               | Some content => acc ++ inline_content content ++ LF ++ LF
               | None => acc
               end)
            files banner.

End Script.

(** The files of a machine as [readFileSync] gives them. *)
Definition texts (m : Machine) : gmap string string := decode m <$> disk m.

(** A machine on which no read and no write throws. *)
Definition sound (m : Machine) : Prop :=
  unwritable m = ∅ /\ unreadable m = ∅ /\ residue m = ∅.

(** A write to [path] goes through. *)
Definition writable (path : string) (m : Machine) : Prop :=
  (path ∉ unwritable m) /\ residue m !! path = None.

(** *** Machines for concrete runs *)

(** The errors of a host that denies permission when a file is opened
    and runs out of space when one is written, in Node's wording. *)
Definition node_errors (call : Syscall) : FsError :=
  mkFsError
    match call with
    | sys_open path => "EACCES: permission denied, open '" ++ path ++ "'"
    | sys_write path => "ENOSPC: no space left on device, write"
    | sys_copyfile src dest =>
        "EACCES: permission denied, copyfile '" ++ src ++ "' -> '" ++ dest ++ "'"
    end.

(** A machine with these files, all of them ASCII text (which decoding
    leaves as it is), and no fault. *)
Definition checkout (files_on_disk : gmap string string) : Machine :=
  mkMachine files_on_disk ∅ ∅ [] ∅ (fun bytes => bytes) node_errors.

(** Nothing installed. *)
Definition bare_checkout : Machine := checkout ∅.

(** The bundle is installed. *)
Definition checkout_with_bundle : Machine :=
  checkout {[ sourcePath "/app" := "export declare function column(name: string): Column;" ]}.

(** No bundle, two of the listed declaration files. *)
Definition checkout_with_sources : Machine :=
  checkout
    (<[ join (distDir "/app") "types.d.ts" := "export type Op = 'SELECT' | 'ALL';" ++ LF ]>
       {[ indexPath "/app" :=
            "import { Op } from './types';" ++ LF ++
            "export * from './types';" ++ LF ++
            "export declare const op: Op;" ++ LF ]}).

(** No bundle and no [index.d.ts], the eight other listed files. *)
Definition checkout_without_index : Machine :=
  checkout
    (list_to_map
       (map (fun file => (join (distDir "/app") file, "export declare const x: number;" ++ LF))
            ["types.d.ts"; "column.d.ts"; "context.d.ts"; "sql.d.ts";
             "subquery-builder.d.ts"; "policy-builder.d.ts"; "validation.d.ts";
             "composition.d.ts"])).

(** Nothing installed, and the target cannot be written. *)
Definition read_only_checkout : Machine :=
  mkMachine ∅ {[ targetPath "/app" ]} ∅ [] ∅ (fun bytes => bytes) node_errors.

(** The two sources of [checkout_with_sources], on a machine where a path
    that the script never touches cannot be written and where the disk
    fills up while the target is written, leaving it empty. *)
Definition full_disk_checkout : Machine :=
  mkMachine (disk checkout_with_sources) {[ "/etc/shadow" ]} ∅ []
            {[ targetPath "/app" := Some EmptyString ]} (fun bytes => bytes) node_errors.

(** Nothing installed; a path that the script never touches cannot be
    written. *)
Definition checkout_beside_locked_file : Machine :=
  mkMachine ∅ {[ "/etc/shadow" ]} ∅ [] ∅ (fun bytes => bytes) node_errors.

End CopyTypes.

(** ** A session as a sequence of events *)

Module Playground.
Import Js RLSTester.

(** The example buttons: the React key of each and what its click does,
    [key={example.name}] and [onClick={() => loadExample(example.code)}]. *)
Definition example_buttons : list (string * (Session -> Session)) :=
  map (fun ex => (name ex, loadExample (code ex))) EXAMPLES.

(** The first button with a given key. *)
Fixpoint button (key : string) (buttons : list (string * (Session -> Session)))
  : option (Session -> Session) :=
  match buttons with
  | [] => None
  | (k, onClick) :: rest => if String.eqb k key then Some onClick else button key rest
  end.

(** What can happen to the mounted component. *)
Inductive Event : Type :=
| Generate                        (* click on Generate *)
| PickExample (key : string)      (* click on the example button with this key *)
| Edit (value : option string)    (* the editor's onChange *)
| Copy (settles : Settlement)     (* click on Copy *)
| Idle (d : N).                   (* time passes *)

Section Run.
Variable engine : Engine.

Definition step (w : World) (ev : Event) : World :=
  match ev with
  | Generate => handle (executeCode engine) w
  | PickExample key =>
      match button key example_buttons with
      | Some onClick => handle onClick w
      | None => w
      end
  | Edit value => handle (onChange value) w
  | Copy settles => copyToClipboard settles w
  | Idle d => advance d w
  end.

Definition run (events : list Event) (w : World) : World :=
  fold_left step events w.

End Run.

(** Every pending reset is due later than now and at most 2000 ms from
    now. *)
Definition resets_within_delay (w : World) : Prop :=
  Forall (fun t => (clock w < t)%N /\ (t <= clock w + 2000)%N) (timers w).

(** A set flag has a reset pending. *)
Definition flag_has_reset (w : World) : Prop :=
  copied (session w) = true -> timers w <> [].

End Playground.

(** ** The editor's TypeScript defaults *)

Module Editor.
Import Js RLSTester.

(** The values of the options the component sets. *)
Inductive OptionValue : Type :=
| Flag (b : bool)
| ScriptTarget_ES2020
| ModuleResolutionKind_NodeJs
| ModuleKind_CommonJS.

(** [monaco.languages.typescript.typescriptDefaults], as far as the
    component writes to it: the extra libraries by file path (the version
    counter kept beside each content is left out) and the two option
    objects, each replaced as a whole by its setter. *)
Record TypescriptDefaults : Type := mkDefaults {
  extraLibs : gmap string string;
  diagnosticsOptions : list (string * bool);
  compilerOptions : list (string * OptionValue)
}.

Definition addExtraLib (content filePath : string) (d : TypescriptDefaults)
  : TypescriptDefaults :=
  mkDefaults (<[filePath := content]> (extraLibs d)) (diagnosticsOptions d) (compilerOptions d).

Definition setDiagnosticsOptions (options : list (string * bool)) (d : TypescriptDefaults)
  : TypescriptDefaults :=
  mkDefaults (extraLibs d) options (compilerOptions d).

Definition setCompilerOptions (options : list (string * OptionValue)) (d : TypescriptDefaults)
  : TypescriptDefaults :=
  mkDefaults (extraLibs d) (diagnosticsOptions d) options.

Section Mount.
(** The text imported from [../ts-to-rls-types.d.ts?raw]. *)
Variable rlsDslBundledTypes : string.

Definition handleEditorWillMount (d : TypescriptDefaults) : TypescriptDefaults :=
  let d1 := addExtraLib rlsDslBundledTypes "file:///node_modules/ts-to-rls/index.d.ts" d in
  let d2 := addExtraLib globalDeclarations "file:///globals.d.ts" d1 in
  let d3 := setDiagnosticsOptions
              [("noSemanticValidation", true);
               ("noSyntaxValidation", true);
               ("noSuggestionDiagnostics", true)] d2 in
  setCompilerOptions
    [("target", ScriptTarget_ES2020);
     ("allowNonTsExtensions", Flag true);
     ("moduleResolution", ModuleResolutionKind_NodeJs);
     ("module", ModuleKind_CommonJS);
     ("noEmit", Flag true);
     ("esModuleInterop", Flag true);
     ("allowJs", Flag true)] d3.

End Mount.

End Editor.

(** ** The text written by the type-snapshot script *)

Module Snapshot.
Import Js CopyTypes.

(** The four line terminators. *)
Definition is_terminator (term : string) : Prop :=
  term = LF \/ term = CR \/ term = LS \/ term = PS.

(** A text that is empty or starts with a line terminator. *)
Definition clean_start (t : string) : Prop :=
  t = EmptyString \/ exists term rest, is_terminator term /\ t = term ++ rest.

(** Lines as [split_lines] produces them: no terminator inside a line,
    one terminator after each line but the last, nothing after the
    last. *)
Fixpoint well_split (ls : list (string * string)) : Prop :=
  match ls with
  | [] => False
  | (line, term) :: rest =>
      no_terminator line = true /\
      match rest with
      | [] => term = EmptyString
      | _ :: _ => is_terminator term /\ well_split rest
      end
  end.

(** The lines [import A from B;] and [export * from B;], [A] and [B]
    not empty. *)
Definition import_form (line : string) : Prop :=
  exists a b, a <> EmptyString /\ b <> EmptyString /\
              line = "import " ++ a ++ " from " ++ b ++ ";".

Definition export_star_form (line : string) : Prop :=
  exists b, b <> EmptyString /\ line = "export * from " ++ b ++ ";".

(** What the script leaves in the target when no call throws, read off
    the files it looks at: the bytes of the bundle, or the text
    regenerated from the decoded declaration files, or the stub. *)
Definition snapshot (projectRoot : string) (m : Machine) : string :=
  match disk m !! sourcePath projectRoot with
  | Some bundle => bundle
  | None =>
      match disk m !! indexPath projectRoot with
      | Some _ => combined_text projectRoot (texts m)
      | None => fallback
      end
  end.

End Snapshot.

(** * Properties *)

Import Js RLSTester.

(** ** Values *)

Lemma typeof_string_inv (v : Value) :
  typeof v = "string" -> exists s, v = VString s.
Proof.
  destruct v; simpl; intros H; try discriminate H.
  eexists; reflexivity.
Qed.

Lemma truthy_true_iff (s : string) : truthy s = true <-> s <> EmptyString.
Proof.
  destruct s; simpl; split; intros H; congruence.
Qed.

(** ** The three branches of executeCode *)

Section ExecutorFacts.
Variable engine : Engine.
Variable st : Session.

Lemma executeCode_returned_string (s : string) :
  engine Function_params (input st) Function_args = Returned (VString s) ->
  executeCode engine st = mkSession (input st) s EmptyString (copied st).
Proof.
  unfold executeCode, dispatch, executeCode_updates.
  intros ->. reflexivity.
Qed.

Lemma executeCode_returned_other (v : Value) :
  engine Function_params (input st) Function_args = Returned v ->
  typeof v <> "string" ->
  executeCode engine st = mkSession (input st) (output st) CONTRACT_MESSAGE (copied st).
Proof.
  unfold executeCode, dispatch, executeCode_updates.
  intros -> Hty.
  destruct v; simpl in *; try reflexivity.
  exfalso; apply Hty; reflexivity.
Qed.

Lemma executeCode_threw (err : Value) :
  engine Function_params (input st) Function_args = Threw err ->
  executeCode engine st = mkSession (input st) EmptyString (caught_message err) (copied st).
Proof.
  unfold executeCode, dispatch, executeCode_updates.
  intros ->. reflexivity.
Qed.

(** The program source and the acknowledgement flag are never touched. *)
Lemma executeCode_frame :
  input (executeCode engine st) = input st /\
  copied (executeCode engine st) = copied st.
Proof.
  unfold executeCode, dispatch, executeCode_updates.
  destruct (engine _ _ _) as [[]|]; simpl; auto.
Qed.

End ExecutorFacts.

Lemma caught_message_not_Error (err : Value) :
  instanceof_Error err = false -> caught_message err = FALLBACK_MESSAGE.
Proof. destruct err; simpl; intros H; try reflexivity; discriminate H. Qed.

(** C1.  When the body runs to a [return] of a value whose [typeof] is
    "string", executeCode stores exactly that string as the output and
    leaves the error empty; a non-empty string is what the result panel
    then shows. *)
Theorem executeCode_string_result (engine : Engine) (st : Session) (v : Value) :
  engine Function_params (input st) Function_args = Returned v ->
  typeof v = "string" ->
  VString (output (executeCode engine st)) = v /\
  error (executeCode engine st) = EmptyString /\
  (truthy (output (executeCode engine st)) = true ->
   render_panel (executeCode engine st) = GeneratedSql (output (executeCode engine st))).
Proof.
  intros Hrun Hty.
  destruct (typeof_string_inv v Hty) as [s ->].
  rewrite (executeCode_returned_string engine st s Hrun).
  unfold render_panel; simpl.
  repeat split. intros ->. reflexivity.
Qed.

Lemma executeCode_string_result_witness :
  VString (output (executeCode scenario_engine (mkSession "return 'X';" "old" "stale" false)))
    = VString "X" /\
  error (executeCode scenario_engine (mkSession "return 'X';" "old" "stale" false))
    = EmptyString.
Proof.
  pose proof (executeCode_string_result scenario_engine
                (mkSession "return 'X';" "old" "stale" false) (VString "X")
                eq_refl eq_refl) as [H1 [H2 _]].
  split; [exact H1 | exact H2].
Defined.

(** C2.  When the body runs to its end and the value it returns is not a
    string ([undefined] when there is no [return]), executeCode sets the
    error to the fixed message, whatever the value, and the result panel
    shows that message. *)
Theorem executeCode_non_string_result (engine : Engine) (st : Session) (v : Value) :
  engine Function_params (input st) Function_args = Returned v ->
  typeof v <> "string" ->
  error (executeCode engine st) = "Code must return a string (use policy.toSQL())" /\
  render_panel (executeCode engine st)
    = ErrorBox "Code must return a string (use policy.toSQL())".
Proof.
  intros Hrun Hty.
  rewrite (executeCode_returned_other engine st v Hrun Hty).
  split; reflexivity.
Qed.

Lemma executeCode_non_string_result_witness :
  error (executeCode scenario_engine (mkSession "return 42;" EmptyString EmptyString false))
    = "Code must return a string (use policy.toSQL())" /\
  error (executeCode scenario_engine (mkSession "createPolicy('p');" EmptyString EmptyString false))
    = "Code must return a string (use policy.toSQL())".
Proof.
  split.
  - apply (executeCode_non_string_result scenario_engine
             (mkSession "return 42;" EmptyString EmptyString false) (VNumber 42)).
    + reflexivity.
    + simpl; discriminate.
  - apply (executeCode_non_string_result scenario_engine
             (mkSession "createPolicy('p');" EmptyString EmptyString false) VUndefined).
    + reflexivity.
    + simpl; discriminate.
Defined.

(** C3, as the code has it.  A throw is caught: executeCode returns a
    state, with the output cleared and the source kept.  The error is the
    [message] of the thrown value when it is an instance of Error, as it
    is, and the fallback "An error occurred" for every other thrown value;
    it is not empty when the value is not an Error or is an Error with a
    message that is not empty, and the result panel then shows it. *)
Theorem executeCode_throw_caught (engine : Engine) (st : Session) (err : Value) :
  engine Function_params (input st) Function_args = Threw err ->
  output (executeCode engine st) = EmptyString /\
  input (executeCode engine st) = input st /\
  (forall message, err = VError message -> error (executeCode engine st) = message) /\
  (instanceof_Error err = false ->
   error (executeCode engine st) = "An error occurred") /\
  (truthy (error (executeCode engine st)) = true ->
   render_panel (executeCode engine st) = ErrorBox (error (executeCode engine st))).
Proof.
  intros Hrun.
  rewrite (executeCode_threw engine st err Hrun).
  unfold render_panel; simpl.
  repeat split.
  - intros message ->. reflexivity.
  - apply caught_message_not_Error.
  - intros ->. reflexivity.
Qed.

Lemma executeCode_throw_caught_witness :
  error (executeCode scenario_engine
           (mkSession "throw new Error('bad column');" "old" EmptyString false))
    = "bad column" /\
  output (executeCode scenario_engine
            (mkSession "throw new Error('bad column');" "old" EmptyString false))
    = EmptyString.
Proof.
  pose proof (executeCode_throw_caught scenario_engine
                (mkSession "throw new Error('bad column');" "old" EmptyString false)
                (VError "bad column") eq_refl) as [H1 [_ [H3 _]]].
  split; [exact (H3 "bad column" eq_refl) | exact H1].
Defined.

(** C3 as stated fails: [throw new Error();] throws an Error whose
    message is the empty string, so the error stays empty and the panel
    shows the placeholder instead of a failure; and a thrown object that
    is not an Error gets the fallback even when it carries a message. *)
Lemma executeCode_throw_empty_message :
  scenario_engine Function_params "throw new Error();" Function_args
    = Threw (VError EmptyString) /\
  error (executeCode scenario_engine (mkSession "throw new Error();" EmptyString EmptyString false))
    = EmptyString /\
  render_panel (executeCode scenario_engine
                  (mkSession "throw new Error();" EmptyString EmptyString false))
    = Placeholder /\
  error (executeCode scenario_engine
           (mkSession "throw { message: 'bad column' };" EmptyString EmptyString false))
    = "An error occurred".
Proof. repeat split. Qed.

(** C4.  The branch for a value that is not a string sets the error and
    nothing else: the output of an earlier successful run stays in the
    state next to the new error, and the copy button for it stays on
    screen.  Here the source is edited to [return 'X';] and run, then
    edited to [return 42;] and run. *)
Theorem stale_output_survives_contract_violation :
  output (executeCode scenario_engine (onChange (Some "return 'X';") initial)) = "X" /\
  error (executeCode scenario_engine (onChange (Some "return 'X';") initial)) = EmptyString /\
  executeCode scenario_engine
    (onChange (Some "return 42;")
       (executeCode scenario_engine (onChange (Some "return 'X';") initial)))
    = mkSession "return 42;" "X" CONTRACT_MESSAGE false /\
  copy_button_shown
    (executeCode scenario_engine
       (onChange (Some "return 42;")
          (executeCode scenario_engine (onChange (Some "return 'X';") initial))))
    = true.
Proof. repeat split. Qed.

(** C5, as the code has it.  Loading an example clears the output and the
    error, so the panel shows the placeholder.  An edit replaces the
    program source (by the empty string when the editor reports no value)
    and leaves the output, the error and the flag as they were. *)
Theorem loadExample_clears_onChange_keeps (st : Session) :
  (forall code : string,
     output (loadExample code st) = EmptyString /\
     error (loadExample code st) = EmptyString /\
     render_panel (loadExample code st) = Placeholder) /\
  (forall value : option string,
     input (onChange value st) = default EmptyString value /\
     output (onChange value st) = output st /\
     error (onChange value st) = error st /\
     copied (onChange value st) = copied st /\
     render_panel (onChange value st) = render_panel st).
Proof.
  split.
  - intros code. repeat split.
  - intros [[|c v]|]; repeat split.
Qed.

(** C5 as stated fails for edits: after a successful run, an edit leaves
    the generated text in the state and on screen. *)
Lemma onChange_keeps_result :
  output (onChange (Some "return 42;")
            (executeCode scenario_engine (onChange (Some "return 'X';") initial)))
    = "X" /\
  render_panel (onChange (Some "return 42;")
                  (executeCode scenario_engine (onChange (Some "return 'X';") initial)))
    = GeneratedSql "X".
Proof. split; reflexivity. Qed.

(** ** The editor's declarations against the scope of the snippet *)

Lemma declared_constants_globalDeclarations :
  declared_constants globalDeclarations =
  ["createPolicy"; "column"; "auth"; "session"; "currentUser"; "from";
   "hasRole"; "alwaysTrue"; "call"; "policies"].
Proof. vm_compute. reflexivity. Qed.

(** C6.  Every name bound in the scope of the snippet is declared to the
    editor, but the editor declares three more, [hasRole], [alwaysTrue]
    and [call], that [new Function] does not bind: the two sets differ. *)
Theorem ambient_names_exceed_scope_names :
  scope_names ⊆ ambient_names /\
  ambient_names ∖ scope_names = {[ "hasRole"; "alwaysTrue"; "call" ]} /\
  ambient_names <> scope_names.
Proof.
  unfold ambient_names, scope_names, Function_params.
  rewrite declared_constants_globalDeclarations.
  split; [|split].
  - intros x.
    rewrite !elem_of_list_to_set, !elem_of_cons, elem_of_nil. tauto.
  - apply set_eq. intros x.
    rewrite elem_of_difference, !elem_of_union, !elem_of_singleton.
    rewrite !elem_of_list_to_set, !elem_of_cons, elem_of_nil.
    split.
    + intros [Hin Hout]. intuition (subst; try tauto; exfalso; apply Hout; tauto).
    + intros [[->| ->]| ->]; (split; [tauto|]); intros H;
        repeat (destruct H as [H|H]; [discriminate H|]); exact H.
  - intros Heq.
    assert (Hin : "hasRole" ∈ (list_to_set
              ["createPolicy"; "column"; "auth"; "session"; "from";
               "currentUser"; "policies"] : gset string)).
    { rewrite <- Heq, elem_of_list_to_set, !elem_of_cons.
      do 6 right. left. reflexivity. }
    rewrite elem_of_list_to_set, !elem_of_cons, elem_of_nil in Hin.
    repeat (destruct Hin as [Hin|Hin]; [discriminate Hin|]). exact Hin.
Qed.

(** ** Loading an example *)

(** C7.  For every example of the catalog and every state, loading the
    example makes its code the program source and empties the output and
    the error: the panel shows the placeholder, which is neither the error
    box nor the generated text, and the copy button is gone. *)
Theorem loadExample_of_catalog :
  Forall (fun ex : Example =>
            forall st : Session,
              input (loadExample (code ex) st) = code ex /\
              output (loadExample (code ex) st) = EmptyString /\
              error (loadExample (code ex) st) = EmptyString /\
              render_panel (loadExample (code ex) st) = Placeholder /\
              copy_button_shown (loadExample (code ex) st) = false)
         EXAMPLES.
Proof.
  apply Forall_forall. intros ex _ st. repeat split.
Qed.

(** ** The copy action *)

Lemma copied_apply_resets (due : list N) (st : Session) :
  copied (apply_updates (map (fun _ => setCopied false) due) st) =
  match due with
  | [] => copied st
  | _ :: _ => false
  end.
Proof.
  revert st. induction due as [|t due IH]; intros st; [reflexivity|].
  unfold apply_updates in *. simpl. rewrite IH.
  destruct due; reflexivity.
Qed.

Lemma copied_advance (d : N) (w : World) :
  copied (session (advance d w)) =
  match List.filter (fun t => (t <=? clock w + d)%N) (timers w) with
  | [] => copied (session w)
  | _ :: _ => false
  end.
Proof. unfold advance. simpl. apply copied_apply_resets. Qed.

Lemma filter_all_due (now : N) (l : list N) :
  Forall (fun t => (t <= now)%N) l ->
  List.filter (fun t => negb (t <=? now)%N) l = [].
Proof.
  induction 1 as [|t l Ht _ IH]; [reflexivity|].
  simpl. apply N.leb_le in Ht. rewrite Ht. simpl. exact IH.
Qed.

(** C8, as the code has it.  When the write of a non-empty output
    resolves, the text handed to the clipboard is the output, the flag is
    set, and a reset is scheduled 2000 ms later: with no event from the
    user the flag is cleared once 2000 ms have passed, and, when no reset
    of an earlier copy is still pending at that moment, it stays set
    through every shorter delay. *)
Theorem copy_acknowledged_then_reset (w : World) (after : N) :
  truthy (output (session w)) = true ->
  writeText_calls (copyToClipboard (Resolves after) w)
    = (writeText_calls w ++ [output (session w)])%list /\
  copied (session (copyToClipboard (Resolves after) w)) = true /\
  (forall d : N, (2000 <= d)%N ->
     copied (session (advance d (copyToClipboard (Resolves after) w))) = false) /\
  (Forall (fun t => (t <= clock w + after)%N) (timers w) ->
   forall d : N, (d < 2000)%N ->
     copied (session (advance d (copyToClipboard (Resolves after) w))) = true).
Proof.
  intros Hout.
  unfold copyToClipboard, copyToClipboard_begin. rewrite Hout.
  split; [reflexivity|]. split; [reflexivity|]. split.
  - intros d Hd. rewrite copied_advance.
    unfold copyToClipboard_resume, setTimeout_reset, commit, advance. simpl.
    rewrite List.filter_app. simpl.
    assert (Hdue : (clock w + after + 2000 <=? clock w + after + d)%N = true)
      by (apply N.leb_le; lia).
    rewrite Hdue.
    destruct (List.filter _ (List.filter _ (timers w))); reflexivity.
  - intros Hnone d Hd. rewrite copied_advance.
    unfold copyToClipboard_resume, setTimeout_reset, commit, advance. simpl.
    rewrite (filter_all_due _ _ Hnone). simpl.
    assert (Hlate : (clock w + after + 2000 <=? clock w + after + d)%N = false)
      by (apply N.leb_gt; lia).
    rewrite Hlate. reflexivity.
Qed.

Lemma copy_acknowledged_then_reset_witness :
  copied (session (copyToClipboard (Resolves 30)
            (handle (executeCode scenario_engine)
               (handle (onChange (Some "return 'X';")) boot)))) = true /\
  copied (session (advance 1999 (copyToClipboard (Resolves 30)
            (handle (executeCode scenario_engine)
               (handle (onChange (Some "return 'X';")) boot))))) = true /\
  copied (session (advance 2000 (copyToClipboard (Resolves 30)
            (handle (executeCode scenario_engine)
               (handle (onChange (Some "return 'X';")) boot))))) = false.
Proof.
  pose proof (copy_acknowledged_then_reset
                (handle (executeCode scenario_engine)
                   (handle (onChange (Some "return 'X';")) boot))
                30%N eq_refl) as [_ [H2 [H3 H4]]].
  split; [exact H2|]. split.
  - apply H4; [constructor | reflexivity].
  - apply H3. discriminate.
Defined.

(** C8 as stated fails when two copies overlap: the second write resolves
    1500 ms after the first, and the reset of the first clears the flag
    500 ms later, not 2000 ms later. *)
Lemma second_copy_reset_early :
  clock (copyToClipboard (Resolves 0)
           (advance 1500
              (copyToClipboard (Resolves 0)
                 (handle (executeCode scenario_engine)
                    (handle (onChange (Some "return 'X';")) boot))))) = 1500%N /\
  copied (session
    (copyToClipboard (Resolves 0)
       (advance 1500
          (copyToClipboard (Resolves 0)
             (handle (executeCode scenario_engine)
                (handle (onChange (Some "return 'X';")) boot)))))) = true /\
  copied (session
    (advance 500
       (copyToClipboard (Resolves 0)
          (advance 1500
             (copyToClipboard (Resolves 0)
                (handle (executeCode scenario_engine)
                   (handle (onChange (Some "return 'X';")) boot))))))) = false.
Proof. repeat split. Qed.

(** C10.  With an empty output the copy action does nothing, however the
    clipboard would have settled: no text is handed to [writeText], the
    function is not suspended, and the world (state, flag, timers, clock)
    is the one before. *)
Theorem copy_of_empty_output_is_noop (w : World) (settles : Settlement) :
  output (session w) = EmptyString ->
  copyToClipboard_begin w = (w, false) /\
  copyToClipboard settles w = w /\
  writeText_calls (copyToClipboard settles w) = writeText_calls w /\
  copied (session (copyToClipboard settles w)) = copied (session w) /\
  timers (copyToClipboard settles w) = timers w.
Proof.
  intros Hout.
  unfold copyToClipboard, copyToClipboard_begin. rewrite Hout. simpl.
  repeat split.
Qed.

Lemma copy_of_empty_output_is_noop_witness :
  copyToClipboard (Resolves 0) boot = boot /\
  copyToClipboard Rejects (handle (loadExample "return 'X';") boot)
    = handle (loadExample "return 'X';") boot.
Proof.
  split.
  - apply (copy_of_empty_output_is_noop boot (Resolves 0)). reflexivity.
  - apply (copy_of_empty_output_is_noop (handle (loadExample "return 'X';") boot) Rejects).
    reflexivity.
Defined.

(** ** The type-snapshot script *)

Import CopyTypes.

Lemma append_assoc (a b c : string) : (a ++ b) ++ c = a ++ (b ++ c).
Proof.
  induction a as [|x a IH]; [reflexivity|].
  change (String x ((a ++ b) ++ c) = String x (a ++ (b ++ c))).
  rewrite IH. reflexivity.
Qed.

Lemma indexPath_in_distDir (projectRoot : string) :
  indexPath projectRoot = join (distDir projectRoot) "index.d.ts".
Proof.
  unfold indexPath, distDir, join. rewrite !append_assoc. reflexivity.
Qed.

Lemma bind_run {A B : Type} (f : A -> Script B) (s : Script A) (m : Machine) :
  (s ≫= f) m =
  match s m with
  | (m', inr x) => f x m'
  | (m', inl e) => (m', inl e)
  end.
Proof. reflexivity. Qed.

Lemma print_run (to : Stream) (text : string) (m : Machine) :
  print to text m = (with_console (console m ++ [(to, text)]) m, inr tt).
Proof. reflexivity. Qed.

Lemma existsSync_run (path : string) (m : Machine) :
  existsSync path m =
  (m, inr (match disk m !! path with Some _ => true | None => false end)).
Proof.
  unfold existsSync. destruct (disk m !! path); reflexivity.
Qed.

(** *** How each call can end *)

Lemma readFileSync_ok (path bytes : string) (m : Machine) :
  disk m !! path = Some bytes ->
  path ∉ unreadable m ->
  readFileSync path m = (m, inr (decode m bytes)).
Proof.
  intros Hc Hr. unfold readFileSync. rewrite Hc.
  rewrite bool_decide_eq_false_2 by exact Hr. reflexivity.
Qed.

Lemma readFileSync_cases (path : string) (m : Machine) :
  (exists bytes, readFileSync path m = (m, inr (decode m bytes)) /\
                 disk m !! path = Some bytes) \/
  readFileSync path m = (m, inl (thrown m (sys_open path))).
Proof.
  unfold readFileSync, throw.
  destruct (disk m !! path) as [bytes|]; [|right; reflexivity].
  destruct (bool_decide (path ∈ unreadable m)).
  - right. reflexivity.
  - left. exists bytes. split; reflexivity.
Qed.

Lemma writeFileSync_ok (path content : string) (m : Machine) :
  writable path m ->
  writeFileSync path content m = put_file path content m.
Proof.
  intros [Hw Hres]. unfold writeFileSync.
  rewrite bool_decide_eq_false_2 by exact Hw. rewrite Hres. reflexivity.
Qed.

Lemma writeFileSync_cases (path content : string) (m : Machine) :
  (writeFileSync path content m = put_file path content m /\ writable path m) \/
  (writeFileSync path content m = (m, inl (thrown m (sys_open path))) /\
   (path ∈ unwritable m)) \/
  (exists remains,
     writeFileSync path content m
       = (with_disk (leave path remains (disk m)) m, inl (thrown m (sys_write path))) /\
     (path ∉ unwritable m) /\ residue m !! path = Some remains).
Proof.
  unfold writeFileSync, throw, writable.
  destruct (bool_decide (path ∈ unwritable m)) eqn:Hw.
  - right. left. split; [reflexivity|]. apply bool_decide_eq_true in Hw. exact Hw.
  - apply bool_decide_eq_false in Hw.
    destruct (residue m !! path) as [remains|] eqn:Hres.
    + right. right. exists remains.
      split; [reflexivity | split; [exact Hw | reflexivity]].
    + left. split; [reflexivity | split; [exact Hw | reflexivity]].
Qed.

Lemma copyFileSync_ok (src dst bytes : string) (m : Machine) :
  disk m !! src = Some bytes ->
  src ∉ unreadable m ->
  writable dst m ->
  copyFileSync src dst m = put_file dst bytes m.
Proof.
  intros Hc Hr [Hw Hres]. unfold copyFileSync. rewrite Hc.
  rewrite (bool_decide_eq_false_2 _ Hr), (bool_decide_eq_false_2 _ Hw), Hres.
  reflexivity.
Qed.

Lemma copyFileSync_cases (src dst bytes : string) (m : Machine) :
  disk m !! src = Some bytes ->
  (copyFileSync src dst m = put_file dst bytes m /\
   (src ∉ unreadable m) /\ writable dst m) \/
  (copyFileSync src dst m = (m, inl (thrown m (sys_copyfile src dst))) /\
   (src ∈ unreadable m \/ dst ∈ unwritable m)) \/
  (exists remains,
     copyFileSync src dst m
       = (with_disk (leave dst remains (disk m)) m, inl (thrown m (sys_copyfile src dst))) /\
     (dst ∉ unwritable m) /\ residue m !! dst = Some remains).
Proof.
  intros Hc. unfold copyFileSync, throw, writable. rewrite Hc.
  destruct (bool_decide (src ∈ unreadable m)) eqn:Hr.
  - right. left. split; [reflexivity|]. left. apply bool_decide_eq_true in Hr. exact Hr.
  - apply bool_decide_eq_false in Hr.
    destruct (bool_decide (dst ∈ unwritable m)) eqn:Hw.
    + right. left. split; [reflexivity|]. right. apply bool_decide_eq_true in Hw. exact Hw.
    + apply bool_decide_eq_false in Hw. simpl.
      destruct (residue m !! dst) as [remains|] eqn:Hres.
      * right. right. exists remains.
        split; [reflexivity | split; [exact Hw | reflexivity]].
      * left. split; [reflexivity | split; [exact Hr | split; [exact Hw | reflexivity]]].
Qed.

(** The loop reads and never writes: when the listed files that exist can
    be read it returns the accumulated text, made of their decoded
    contents, and leaves the machine as it was. *)
Lemma combine_ok (projectRoot : string) (rest : list string) :
  forall (combined : string) (m : Machine),
    (forall file, In file rest ->
       is_Some (disk m !! join (distDir projectRoot) file) ->
       join (distDir projectRoot) file ∉ unreadable m) ->
    combine projectRoot rest combined m =
    (m, inr (fold_left (fun acc file =>
                          match texts m !! join (distDir projectRoot) file with
                          | Some content => acc ++ inline_content content ++ LF ++ LF
                          | None => acc
                          end)
                       rest combined)).
Proof.
  induction rest as [|file rest IH]; intros combined m Hr; [reflexivity|].
  simpl combine. rewrite bind_run, existsSync_run.
  unfold texts in *. cbn [fold_left]. rewrite lookup_fmap.
  destruct (disk m !! join (distDir projectRoot) file) as [bytes|] eqn:Hfile.
  - rewrite bind_run, (readFileSync_ok _ bytes m Hfile).
    + cbn [fmap option_fmap option_map]. apply IH.
      intros f Hin. apply Hr. right. exact Hin.
    + apply Hr; [left; reflexivity | rewrite Hfile; eexists; reflexivity].
  - cbn [fmap option_fmap option_map]. apply IH.
    intros f Hin. apply Hr. right. exact Hin.
Qed.

(** Whether it returns or throws, the loop leaves the machine as it
    was, and what it throws is the host's error for a call. *)
Lemma combine_machine (projectRoot : string) (rest : list string) :
  forall (combined : string) (m : Machine),
    (exists text, combine projectRoot rest combined m = (m, inr text)) \/
    (exists call, combine projectRoot rest combined m = (m, inl (thrown m call))).
Proof.
  induction rest as [|file rest IH]; intros combined m.
  - left. eexists. reflexivity.
  - simpl combine. rewrite bind_run, existsSync_run.
    destruct (disk m !! join (distDir projectRoot) file) as [bytes|].
    + rewrite bind_run.
      destruct (readFileSync_cases (join (distDir projectRoot) file) m)
        as [[b [-> _]]| ->].
      * apply IH.
      * right. eexists. reflexivity.
    + apply IH.
Qed.

(** Without the [catch] the body can end the process with status 1:
    here the target cannot be written. *)
Lemma try_body_can_throw :
  exit_status (snd (run_bare (try_body "/app") read_only_checkout)) = 1%Z.
Proof. vm_compute. reflexivity. Qed.

(** *** The three tiers, when the calls they make go through *)

Lemma copy_types_bundle_run (projectRoot bundle : string) (m : Machine) :
  disk m !! sourcePath projectRoot = Some bundle ->
  sourcePath projectRoot ∉ unreadable m ->
  writable (targetPath projectRoot) m ->
  snd (copy_types projectRoot m) = RanToEnd /\
  disk (fst (copy_types projectRoot m))
    = <[targetPath projectRoot := bundle]> (disk m).
Proof.
  intros Hsrc Hr Hw.
  unfold copy_types, try_body.
  rewrite bind_run, existsSync_run, Hsrc.
  rewrite bind_run, (copyFileSync_ok _ _ bundle m Hsrc Hr Hw).
  split; reflexivity.
Qed.

Lemma copy_types_regenerate_run (projectRoot index : string) (m : Machine) :
  disk m !! sourcePath projectRoot = None ->
  disk m !! indexPath projectRoot = Some index ->
  (forall file, In file files ->
     is_Some (disk m !! join (distDir projectRoot) file) ->
     join (distDir projectRoot) file ∉ unreadable m) ->
  writable (targetPath projectRoot) m ->
  snd (copy_types projectRoot m) = RanToEnd /\
  disk (fst (copy_types projectRoot m))
    = <[targetPath projectRoot := combined_text projectRoot (texts m)]> (disk m).
Proof.
  intros Hsrc Hidx Hr Hw.
  unfold copy_types, try_body.
  rewrite bind_run, existsSync_run, Hsrc.
  rewrite bind_run, print_run. cbv beta iota.
  rewrite bind_run, existsSync_run. cbn [disk with_console]. rewrite Hidx.
  rewrite bind_run, combine_ok by exact Hr. cbv beta iota.
  rewrite bind_run, writeFileSync_ok by exact Hw.
  split; reflexivity.
Qed.

Lemma copy_types_stub_run (projectRoot : string) (m : Machine) :
  disk m !! sourcePath projectRoot = None ->
  disk m !! indexPath projectRoot = None ->
  writable (targetPath projectRoot) m ->
  snd (copy_types projectRoot m) = RanToEnd /\
  disk (fst (copy_types projectRoot m))
    = <[targetPath projectRoot := fallback]> (disk m).
Proof.
  intros Hsrc Hidx Hw.
  unfold copy_types, try_body.
  rewrite bind_run, existsSync_run, Hsrc.
  rewrite bind_run, print_run. cbv beta iota.
  rewrite bind_run, existsSync_run. cbn [disk with_console]. rewrite Hidx.
  rewrite bind_run, writeFileSync_ok by exact Hw.
  split; reflexivity.
Qed.

(** C9, as the code has it.  The script ends with exit status 0 on every
    machine, whatever the [fs] calls throw.  When the target can be
    written, it receives the bundle if the bundle exists and can be read.
    Without a bundle the gate is [index.d.ts]: when it exists, the target
    receives the banner followed by the listed declaration files that
    exist, decoded and inlined (they have to be readable); when it does
    not exist, the target receives the stub that re-exports the package,
    whether or not the other listed files exist. *)
Theorem copy_types_never_fails_build (projectRoot : string) (m : Machine) :
  exit_status (snd (copy_types projectRoot m)) = 0%Z /\
  (writable (targetPath projectRoot) m ->
   match disk m !! sourcePath projectRoot with
   | Some bundle =>
       sourcePath projectRoot ∉ unreadable m ->
       disk (fst (copy_types projectRoot m)) !! targetPath projectRoot = Some bundle
   | None =>
       match disk m !! indexPath projectRoot with
       | Some _ =>
           (forall file : string,
              In file files ->
              is_Some (disk m !! join (distDir projectRoot) file) ->
              join (distDir projectRoot) file ∉ unreadable m) ->
           disk (fst (copy_types projectRoot m)) !! targetPath projectRoot
             = Some (combined_text projectRoot (texts m))
       | None =>
           disk (fst (copy_types projectRoot m)) !! targetPath projectRoot
             = Some fallback
       end
   end).
Proof.
  split.
  - unfold copy_types.
    destruct (try_body projectRoot m) as [m' [e|u]]; reflexivity.
  - intros Hw.
    destruct (disk m !! sourcePath projectRoot) as [bundle|] eqn:Hsrc.
    + intros Hr.
      destruct (copy_types_bundle_run projectRoot bundle m Hsrc Hr Hw) as [_ ->].
      apply lookup_insert_eq.
    + destruct (disk m !! indexPath projectRoot) as [index|] eqn:Hidx.
      * intros Hr.
        destruct (copy_types_regenerate_run projectRoot index m Hsrc Hidx Hr Hw) as [_ ->].
        apply lookup_insert_eq.
      * destruct (copy_types_stub_run projectRoot m Hsrc Hidx Hw) as [_ ->].
        apply lookup_insert_eq.
Qed.

Lemma writable_checkout (files_on_disk : gmap string string) (path : string) :
  writable path (checkout files_on_disk).
Proof. split; [apply not_elem_of_empty | apply lookup_empty]. Qed.

Lemma copy_types_never_fails_build_witness :
  exit_status (snd (copy_types "/app" read_only_checkout)) = 0%Z /\
  disk (fst (copy_types "/app" checkout_with_bundle)) !! targetPath "/app"
    = Some "export declare function column(name: string): Column;" /\
  disk (fst (copy_types "/app" checkout_with_sources)) !! targetPath "/app"
    = Some (combined_text "/app" (texts checkout_with_sources)) /\
  disk (fst (copy_types "/app" checkout_without_index)) !! targetPath "/app"
    = Some fallback /\
  disk (fst (copy_types "/app" checkout_beside_locked_file)) !! targetPath "/app"
    = Some fallback.
Proof.
  split; [|split; [|split; [|split]]].
  - apply (copy_types_never_fails_build "/app" read_only_checkout).
  - pose proof (proj2 (copy_types_never_fails_build "/app" checkout_with_bundle)
                  (writable_checkout _ _)) as H.
    assert (E : disk checkout_with_bundle !! sourcePath "/app"
                = Some "export declare function column(name: string): Column;")
      by (vm_compute; reflexivity).
    rewrite E in H. apply H. apply not_elem_of_empty.
  - pose proof (proj2 (copy_types_never_fails_build "/app" checkout_with_sources)
                  (writable_checkout _ _)) as H.
    assert (E1 : disk checkout_with_sources !! sourcePath "/app" = None)
      by (vm_compute; reflexivity).
    assert (E2 : disk checkout_with_sources !! indexPath "/app"
                 = Some ("import { Op } from './types';" ++ LF ++
                         "export * from './types';" ++ LF ++
                         "export declare const op: Op;" ++ LF))
      by (vm_compute; reflexivity).
    rewrite E1, E2 in H. apply H.
    intros file _ _. apply not_elem_of_empty.
  - pose proof (proj2 (copy_types_never_fails_build "/app" checkout_without_index)
                  (writable_checkout _ _)) as H.
    assert (E1 : disk checkout_without_index !! sourcePath "/app" = None)
      by (vm_compute; reflexivity).
    assert (E2 : disk checkout_without_index !! indexPath "/app" = None)
      by (vm_compute; reflexivity).
    rewrite E1, E2 in H. exact H.
  - assert (Hw : writable (targetPath "/app") checkout_beside_locked_file).
    { split; [|apply lookup_empty].
      unfold checkout_beside_locked_file. cbn [unwritable].
      intros Hin. apply elem_of_singleton in Hin. discriminate Hin. }
    pose proof (proj2 (copy_types_never_fails_build "/app" checkout_beside_locked_file) Hw)
      as H.
    assert (E1 : disk checkout_beside_locked_file !! sourcePath "/app" = None)
      by (vm_compute; reflexivity).
    assert (E2 : disk checkout_beside_locked_file !! indexPath "/app" = None)
      by (vm_compute; reflexivity).
    rewrite E1, E2 in H. exact H.
Defined.

(** C9 as stated fails: with no bundle and no [index.d.ts] the script
    writes the stub although the eight other constituent files are there
    to regenerate from. *)
Lemma stub_written_beside_constituents :
  Forall (fun file =>
            disk checkout_without_index !! join (distDir "/app") file
              = Some ("export declare const x: number;" ++ LF))
         ["types.d.ts"; "column.d.ts"; "context.d.ts"; "sql.d.ts";
          "subquery-builder.d.ts"; "policy-builder.d.ts"; "validation.d.ts";
          "composition.d.ts"] /\
  disk checkout_without_index !! sourcePath "/app" = None /\
  snd (copy_types "/app" checkout_without_index) = RanToEnd /\
  disk (fst (copy_types "/app" checkout_without_index)) !! targetPath "/app"
    = Some ("// Fallback type definitions" ++ LF ++ "export * from 'rls-dsl';" ++ LF) /\
  disk (fst (copy_types "/app" checkout_without_index)) !! targetPath "/app"
    <> Some (combined_text "/app" (texts checkout_without_index)).
Proof.
  split; [|split; [|split; [|split]]].
  - repeat constructor.
  - vm_compute. reflexivity.
  - vm_compute. reflexivity.
  - vm_compute. reflexivity.
  - vm_compute. discriminate.
Qed.

(** The outcomes on the machines above: the bundle copied, the
    declarations regenerated with their import and re-export lines
    blanked, the stub written (also beside a file that is locked but not
    touched); and the report of a failed write. *)
Example copy_types_runs :
  disk (fst (copy_types "/app" checkout_with_bundle)) !! targetPath "/app"
    = Some "export declare function column(name: string): Column;" /\
  disk (fst (copy_types "/app" checkout_with_sources)) !! targetPath "/app"
    = Some ("// Auto-generated type definitions for rls-dsl" ++ LF ++ LF ++
            "export type Op = 'SELECT' | 'ALL';" ++ LF ++ LF ++ LF ++
            LF ++ LF ++ "export declare const op: Op;" ++ LF ++ LF ++ LF) /\
  disk (fst (copy_types "/app" bare_checkout)) !! targetPath "/app"
    = Some ("// Fallback type definitions" ++ LF ++ "export * from 'rls-dsl';" ++ LF) /\
  disk (fst (copy_types "/app" checkout_beside_locked_file)) !! targetPath "/app"
    = Some ("// Fallback type definitions" ++ LF ++ "export * from 'rls-dsl';" ++ LF) /\
  snd (copy_types "/app" read_only_checkout) = ProcessExit 0 /\
  console (fst (copy_types "/app" read_only_checkout))
    = [(Warn, "⚠ bundle.d.ts not found, generating from index.d.ts");
       (Err, "Error copying types: EACCES: permission denied, open '/app/src/rls-dsl-types.d.ts'")] /\
  disk (fst (copy_types "/app" full_disk_checkout)) !! targetPath "/app"
    = Some EmptyString /\
  console (fst (copy_types "/app" full_disk_checkout))
    = [(Warn, "⚠ bundle.d.ts not found, generating from index.d.ts");
       (Err, "Error copying types: ENOSPC: no space left on device, write")].
Proof. repeat split; vm_compute; reflexivity. Qed.

(** * Further properties of the component *)

Import Playground.

(** X1.  executeCode never changes the program source or the copied flag,
    whatever the engine answers. *)
Theorem executeCode_keeps_source_and_flag (engine : Engine) (st : Session) :
  input (executeCode engine st) = input st /\
  copied (executeCode engine st) = copied st.
Proof.
  unfold executeCode, dispatch, executeCode_updates.
  destruct (engine Function_params (input st) Function_args) as [[]|];
    split; reflexivity.
Qed.

(** X2.  The error left by an earlier run never shows through: two states
    that differ only in their error give the same state after
    executeCode. *)
Theorem executeCode_forgets_error (engine : Engine)
    (source text : string) (error1 error2 : string) (flag : bool) :
  executeCode engine (mkSession source text error1 flag) =
  executeCode engine (mkSession source text error2 flag).
Proof.
  unfold executeCode, dispatch, executeCode_updates. simpl.
  destruct (engine Function_params source Function_args) as [[]|]; reflexivity.
Qed.

(** X3.  Running the same source again changes nothing: executeCode is
    idempotent (for an engine whose answer depends only on the source and
    the bindings). *)
Theorem executeCode_idempotent (engine : Engine) (st : Session) :
  executeCode engine (executeCode engine st) = executeCode engine st.
Proof.
  unfold executeCode, dispatch, executeCode_updates.
  destruct (engine Function_params (input st) Function_args) as [[]|] eqn:Hrun;
    simpl; rewrite Hrun; reflexivity.
Qed.


(** The names of the catalog work as keys: for every example, the
    button found under its name loads that example's code and no
    other's. *)
Lemma example_button_loads_its_code :
  Forall (fun ex : Example =>
            button (name ex) example_buttons = Some (loadExample (code ex)))
         EXAMPLES.
Proof. repeat constructor. Qed.

(** ** Invariants of a session *)

Lemma apply_resets_fields (due : list N) (st : Session) :
  input (apply_updates (map (fun _ => setCopied false) due) st) = input st /\
  output (apply_updates (map (fun _ => setCopied false) due) st) = output st /\
  error (apply_updates (map (fun _ => setCopied false) due) st) = error st.
Proof.
  revert st. induction due as [|t due IH]; intros st; [repeat split|].
  exact (IH (apply_update st (setCopied false))).
Qed.

Lemma advance_fields (d : N) (w : World) :
  input (session (advance d w)) = input (session w) /\
  output (session (advance d w)) = output (session w) /\
  error (session (advance d w)) = error (session w) /\
  writeText_calls (advance d w) = writeText_calls w.
Proof.
  unfold advance. simpl.
  destruct (apply_resets_fields
              (List.filter (fun t => (t <=? clock w + d)%N) (timers w)) (session w))
    as [H1 [H2 H3]].
  repeat split; assumption.
Qed.

Lemma copyToClipboard_resume_fields (w : World) :
  input (session (copyToClipboard_resume w)) = input (session w) /\
  output (session (copyToClipboard_resume w)) = output (session w) /\
  error (session (copyToClipboard_resume w)) = error (session w) /\
  writeText_calls (copyToClipboard_resume w) = writeText_calls w.
Proof. repeat split. Qed.

(** What the copy action leaves alone. *)
Lemma copyToClipboard_fields (settles : Settlement) (w : World) :
  input (session (copyToClipboard settles w)) = input (session w) /\
  output (session (copyToClipboard settles w)) = output (session w) /\
  error (session (copyToClipboard settles w)) = error (session w) /\
  session (copyToClipboard Rejects w) = session w /\
  timers (copyToClipboard Rejects w) = timers w /\
  clock (copyToClipboard Rejects w) = clock w.
Proof.
  unfold copyToClipboard, copyToClipboard_begin.
  destruct (truthy (output (session w))); [|repeat split].
  destruct settles as [after|]; [|repeat split].
  set (w0 := mkWorld (session w) (clock w) (timers w)
                     (writeText_calls w ++ [output (session w)])).
  destruct (copyToClipboard_resume_fields (advance after w0)) as [R1 [R2 [R3 _]]].
  destruct (advance_fields after w0) as [A1 [A2 [A3 _]]].
  rewrite R1, R2, R3, A1, A2, A3. repeat split.
Qed.

(** X5.  The copy action never changes the program source, the output or
    the error, however the write settles; and a write that is rejected
    changes nothing but the record of the call: no flag, no timer. *)
Theorem copyToClipboard_keeps_result (settles : Settlement) (w : World) :
  input (session (copyToClipboard settles w)) = input (session w) /\
  output (session (copyToClipboard settles w)) = output (session w) /\
  error (session (copyToClipboard settles w)) = error (session w) /\
  session (copyToClipboard Rejects w) = session w /\
  timers (copyToClipboard Rejects w) = timers w /\
  clock (copyToClipboard Rejects w) = clock w.
Proof. apply copyToClipboard_fields. Qed.

Lemma button_of_catalog (key : string) (onClick : Session -> Session) :
  button key example_buttons = Some onClick ->
  exists ex, In ex EXAMPLES /\ onClick = loadExample (code ex).
Proof.
  unfold example_buttons.
  induction EXAMPLES as [|ex rest IH]; simpl; [discriminate|].
  destruct (String.eqb (name ex) key).
  - intros [= <-]. exists ex. split; [left; reflexivity | reflexivity].
  - intros H. destruct (IH H) as [ex' [Hin ->]].
    exists ex'. split; [right; exact Hin | reflexivity].
Qed.

(** An invariant that holds at the start and is kept by every event
    holds after every sequence of events. *)
Lemma run_invariant (engine : Engine) (P : World -> Prop) :
  (forall w ev, P w -> P (step engine w ev)) ->
  forall events w, P w -> P (run engine events w).
Proof.
  intros Hstep events. unfold run.
  induction events as [|ev events IH]; intros w Hw; [exact Hw|].
  simpl. apply IH. apply Hstep. exact Hw.
Qed.

(** X6.  In every state a session can reach, an output can stand next to
    an error only when the error is the fixed message for a result that
    is not a string: a caught exception never leaves an output, and a new
    output never leaves an error. *)
Theorem stale_output_only_beside_contract_message
    (engine : Engine) (events : list Event) :
  truthy (output (session (run engine events boot))) = true ->
  truthy (error (session (run engine events boot))) = true ->
  error (session (run engine events boot)) = CONTRACT_MESSAGE.
Proof.
  apply (run_invariant engine
           (fun w => truthy (output (session w)) = true ->
                     truthy (error (session w)) = true ->
                     error (session w) = CONTRACT_MESSAGE)).
  - intros w ev IH. destruct ev as [|key|value|settles|d]; unfold step.
    + unfold handle, executeCode, dispatch, executeCode_updates.
      destruct (engine Function_params (input (session w)) Function_args) as [[]|];
        simpl; intros H1 H2; try reflexivity; discriminate.
    + destruct (button key example_buttons) as [onClick|] eqn:Hb; [|exact IH].
      destruct (button_of_catalog key onClick Hb) as [ex [_ ->]].
      simpl. intros H1. discriminate H1.
    + destruct value as [v|]; simpl; exact IH.
    + destruct (copyToClipboard_fields settles w) as [_ [H2 [H3 _]]].
      rewrite H2, H3. exact IH.
    + destruct (advance_fields d w) as [_ [H2 [H3 _]]].
      rewrite H2, H3. exact IH.
  - simpl. intros H1. discriminate H1.
Qed.

Lemma stale_output_only_beside_contract_message_witness :
  error (session (run scenario_engine
                    [Edit (Some "return 'X';"); Generate; Edit (Some "return 42;"); Generate]
                    boot))
    = CONTRACT_MESSAGE.
Proof.
  apply (stale_output_only_beside_contract_message scenario_engine
           [Edit (Some "return 'X';"); Generate; Edit (Some "return 42;"); Generate]);
    reflexivity.
Defined.

(** ** The pending resets of the copied flag *)

Lemma filter_none_due (now : N) (l : list N) :
  List.filter (fun t => (t <=? now)%N) l = [] ->
  List.filter (fun t => negb (t <=? now)%N) l = l.
Proof.
  induction l as [|t l IH]; simpl; [reflexivity|].
  destruct (t <=? now)%N; simpl; [discriminate|].
  intros H. rewrite (IH H). reflexivity.
Qed.


Lemma advance_keeps_resets (d : N) (w : World) :
  resets_within_delay w /\ flag_has_reset w ->
  resets_within_delay (advance d w) /\ flag_has_reset (advance d w).
Proof.
  unfold resets_within_delay, flag_has_reset. intros [Hin Hflag]. split.
  - unfold advance. simpl.
    apply List.Forall_forall. intros t Ht.
    apply List.filter_In in Ht. destruct Ht as [Ht Hlate].
    rewrite List.Forall_forall in Hin. destruct (Hin t Ht) as [_ Hle].
    apply negb_true_iff, N.leb_gt in Hlate. lia.
  - rewrite copied_advance. unfold advance. simpl.
    destruct (List.filter (fun t => (t <=? clock w + d)%N) (timers w)) eqn:Hdue;
      [|discriminate].
    rewrite (filter_none_due _ _ Hdue). exact Hflag.
Qed.

Lemma copyToClipboard_keeps_resets (settles : Settlement) (w : World) :
  resets_within_delay w /\ flag_has_reset w ->
  resets_within_delay (copyToClipboard settles w) /\
  flag_has_reset (copyToClipboard settles w).
Proof.
  intros Hw. unfold copyToClipboard, copyToClipboard_begin.
  destruct (truthy (output (session w))); [|exact Hw].
  set (w0 := mkWorld (session w) (clock w) (timers w)
                     (writeText_calls w ++ [output (session w)])).
  assert (Hw0 : resets_within_delay w0 /\ flag_has_reset w0) by exact Hw.
  destruct settles as [after|]; [|exact Hw0].
  destruct (advance_keeps_resets after w0 Hw0) as [Hin _].
  unfold resets_within_delay, flag_has_reset in *.
  unfold copyToClipboard_resume, setTimeout_reset, commit.
  cbn [session clock timers]. split.
  - apply List.Forall_app. split; [exact Hin|].
    constructor; [lia | constructor].
  - intros _ Hnil. apply app_eq_nil in Hnil. destruct Hnil as [_ Hnil].
    discriminate Hnil.
Qed.

Lemma step_keeps_resets (engine : Engine) (w : World) (ev : Event) :
  resets_within_delay w /\ flag_has_reset w ->
  resets_within_delay (step engine w ev) /\ flag_has_reset (step engine w ev).
Proof.
  intros Hw. destruct ev as [|key|value|settles|d]; unfold step.
  - unfold resets_within_delay, flag_has_reset, handle. cbn [session clock timers].
    destruct (executeCode_frame engine (session w)) as [_ Hc].
    rewrite Hc. exact Hw.
  - destruct (button key example_buttons) as [onClick|] eqn:Hb; [|exact Hw].
    destruct (button_of_catalog key onClick Hb) as [ex [_ ->]]. exact Hw.
  - exact Hw.
  - apply copyToClipboard_keeps_resets. exact Hw.
  - apply advance_keeps_resets. exact Hw.
Qed.

Lemma run_keeps_resets (engine : Engine) (events : list Event) :
  resets_within_delay (run engine events boot) /\
  flag_has_reset (run engine events boot).
Proof.
  apply (run_invariant engine
           (fun w => resets_within_delay w /\ flag_has_reset w)).
  - intros w ev. apply step_keeps_resets.
  - split; [constructor | intros H; discriminate H].
Qed.

(** X7.  Whatever the user does, every pending reset of the copied flag is
    due in the future and at most 2000 ms away, and the flag is never set
    without a reset pending. *)
Theorem resets_always_pending_within_delay (engine : Engine) (events : list Event) :
  Forall (fun t => (clock (run engine events boot) < t)%N /\
                   (t <= clock (run engine events boot) + 2000)%N)
         (timers (run engine events boot)) /\
  (copied (session (run engine events boot)) = true ->
   timers (run engine events boot) <> []).
Proof. exact (run_keeps_resets engine events). Qed.

Lemma resets_always_pending_within_delay_witness :
  timers (run scenario_engine
            [Edit (Some "return 'X';"); Generate; Copy (Resolves 5)] boot) <> [].
Proof.
  apply (resets_always_pending_within_delay scenario_engine
           [Edit (Some "return 'X';"); Generate; Copy (Resolves 5)]).
  reflexivity.
Defined.



(** ** What reaches the clipboard *)

Lemma step_keeps_calls_truthy (engine : Engine) (w : World) (ev : Event) :
  Forall (fun text => truthy text = true) (writeText_calls w) ->
  Forall (fun text => truthy text = true) (writeText_calls (step engine w ev)).
Proof.
  intros Hw. destruct ev as [|key|value|settles|d]; unfold step.
  - exact Hw.
  - destruct (button key example_buttons); exact Hw.
  - exact Hw.
  - unfold copyToClipboard, copyToClipboard_begin.
    destruct (truthy (output (session w))) eqn:Hout; [|exact Hw].
    set (w0 := mkWorld (session w) (clock w) (timers w)
                       (writeText_calls w ++ [output (session w)])).
    assert (Hw0 : Forall (fun text => truthy text = true) (writeText_calls w0)).
    { apply List.Forall_app. split; [exact Hw|]. constructor; [exact Hout | constructor]. }
    destruct settles as [after|]; [|exact Hw0].
    destruct (copyToClipboard_resume_fields (advance after w0)) as [_ [_ [_ R]]].
    destruct (advance_fields after w0) as [_ [_ [_ A]]].
    rewrite R, A. exact Hw0.
  - destruct (advance_fields d w) as [_ [_ [_ A]]]. rewrite A. exact Hw.
Qed.

(** X9.  Whatever the user does, no empty text is ever handed to
    [navigator.clipboard.writeText]. *)
Theorem clipboard_never_gets_empty_text (engine : Engine) (events : list Event) :
  Forall (fun text => truthy text = true)
         (writeText_calls (run engine events boot)).
Proof.
  apply (run_invariant engine
           (fun w => Forall (fun text => truthy text = true) (writeText_calls w))).
  - intros w ev. apply step_keeps_calls_truthy.
  - constructor.
Qed.

(** * Further properties of the editor set-up *)

Import Editor.

(** X10.  Mounting the editor twice leaves the TypeScript defaults as one
    mount does: the two documents are registered under fixed paths and the
    option objects are replaced, so nothing accumulates. *)
Theorem handleEditorWillMount_idempotent (bundled : string) (d : TypescriptDefaults) :
  handleEditorWillMount bundled (handleEditorWillMount bundled d)
    = handleEditorWillMount bundled d.
Proof.
  unfold handleEditorWillMount, setCompilerOptions, setDiagnosticsOptions, addExtraLib.
  cbn [extraLibs diagnosticsOptions compilerOptions].
  f_equal. apply map_eq. intros path.
  rewrite !lookup_insert. repeat case_decide; reflexivity.
Qed.


(** * Further properties of the type-snapshot script *)

Import Snapshot.

Lemma last_reported (m : Machine) (call : Syscall) :
  last (console m ++ [(Err, "Error copying types: " ++ message (thrown m call))])
  = Some (Err, "Error copying types: " ++ message (thrown m call)).
Proof. apply last_snoc. Qed.

(** How a run can end.  Either it runs to its end: the target could be
    written, it has been written and nothing else, and a success line is
    printed last.  Or a call threw: the host's error is reported last,
    the process exits with 0, and the files are untouched unless the
    failure came while the target was being written, which leaves there
    what the failed write left. *)
Lemma copy_types_outcome (projectRoot : string) (m : Machine) :
  unwritable (fst (copy_types projectRoot m)) = unwritable m /\
  unreadable (fst (copy_types projectRoot m)) = unreadable m /\
  residue (fst (copy_types projectRoot m)) = residue m /\
  decode (fst (copy_types projectRoot m)) = decode m /\
  ((snd (copy_types projectRoot m) = RanToEnd /\
    writable (targetPath projectRoot) m /\
    (exists content,
       disk (fst (copy_types projectRoot m))
         = <[targetPath projectRoot := content]> (disk m)) /\
    (exists line, last (console (fst (copy_types projectRoot m))) = Some (Log, line)))
   \/
   (snd (copy_types projectRoot m) = ProcessExit 0 /\
    (exists call, last (console (fst (copy_types projectRoot m)))
                  = Some (Err, "Error copying types: " ++ message (thrown m call))) /\
    (disk (fst (copy_types projectRoot m)) = disk m \/
     ((targetPath projectRoot ∉ unwritable m) /\
      exists remains,
        residue m !! targetPath projectRoot = Some remains /\
        disk (fst (copy_types projectRoot m))
          = leave (targetPath projectRoot) remains (disk m))))).
Proof.
  unfold copy_types, try_body.
  rewrite bind_run, existsSync_run.
  destruct (disk m !! sourcePath projectRoot) as [bundle|] eqn:Hsrc.
  - rewrite bind_run.
    destruct (copyFileSync_cases (sourcePath projectRoot) (targetPath projectRoot)
                bundle m Hsrc)
      as [[-> [_ Hw]]|[[-> _]|[remains [-> [Hw Hres]]]]].
    + cbn. repeat (split; [reflexivity|]). left.
      split; [reflexivity|]. split; [exact Hw|].
      split; [eexists; reflexivity|]. eexists. apply last_snoc.
    + cbn. repeat (split; [reflexivity|]). right.
      split; [reflexivity|]. split; [eexists; apply last_reported|]. left. reflexivity.
    + cbn. repeat (split; [reflexivity|]). right.
      split; [reflexivity|]. split; [eexists; apply last_reported|]. right.
      split; [exact Hw|]. exists remains. split; [exact Hres | reflexivity].
  - rewrite bind_run, print_run. cbv beta iota.
    rewrite bind_run, existsSync_run. cbn [disk with_console].
    set (m1 := with_console
                 (console m ++ [(Warn, "⚠ bundle.d.ts not found, generating from index.d.ts")])
                 m).
    assert (Hthrown : forall call, thrown m1 call = thrown m call) by reflexivity.
    destruct (disk m !! indexPath projectRoot) as [index|].
    + rewrite bind_run.
      destruct (combine_machine projectRoot files banner m1) as [[combined ->]|[call ->]].
      * rewrite bind_run.
        destruct (writeFileSync_cases (targetPath projectRoot) combined m1)
          as [[-> Hw]|[[-> _]|[remains [-> [Hw Hres]]]]].
        -- cbn. repeat (split; [reflexivity|]). left.
           split; [reflexivity|]. split; [exact Hw|].
           split; [eexists; reflexivity|]. eexists. apply last_snoc.
        -- cbn. repeat (split; [reflexivity|]). right.
           split; [reflexivity|].
           split; [eexists; apply (last_reported m1)|]. left. reflexivity.
        -- cbn. repeat (split; [reflexivity|]). right.
           split; [reflexivity|].
           split; [eexists; apply (last_reported m1)|]. right.
           split; [exact Hw|]. exists remains. split; [exact Hres | reflexivity].
      * cbn. repeat (split; [reflexivity|]). right.
        split; [reflexivity|].
        split; [eexists; apply (last_reported m1)|]. left. reflexivity.
    + rewrite bind_run.
      destruct (writeFileSync_cases (targetPath projectRoot) fallback m1)
        as [[-> Hw]|[[-> _]|[remains [-> [Hw Hres]]]]].
      * cbn. repeat (split; [reflexivity|]). left.
        split; [reflexivity|]. split; [exact Hw|].
        split; [eexists; reflexivity|]. eexists. apply last_snoc.
      * cbn. repeat (split; [reflexivity|]). right.
        split; [reflexivity|].
        split; [eexists; apply (last_reported m1)|]. left. reflexivity.
      * cbn. repeat (split; [reflexivity|]). right.
        split; [reflexivity|].
        split; [eexists; apply (last_reported m1)|]. right.
        split; [exact Hw|]. exists remains. split; [exact Hres | reflexivity].
Qed.

Lemma append_inj_l (a b c : string) : a ++ b = a ++ c -> b = c.
Proof.
  induction a as [|x a IH]; intros H; [exact H|].
  change (String x (a ++ b) = String x (a ++ c)) in H.
  injection H as H. exact (IH H).
Qed.

Lemma targetPath_ne_sourcePath (projectRoot : string) :
  sourcePath projectRoot <> targetPath projectRoot.
Proof.
  unfold sourcePath, targetPath, join. intros H.
  apply append_inj_l in H. discriminate H.
Qed.

Lemma targetPath_ne_indexPath (projectRoot : string) :
  indexPath projectRoot <> targetPath projectRoot.
Proof.
  unfold indexPath, targetPath, join. intros H.
  apply append_inj_l in H. discriminate H.
Qed.

Lemma targetPath_ne_listed (projectRoot file : string) :
  join (distDir projectRoot) file <> targetPath projectRoot.
Proof.
  unfold distDir, targetPath, join. rewrite !append_assoc. intros H.
  apply append_inj_l in H. discriminate H.
Qed.

Lemma combined_text_agree (projectRoot : string) (d1 d2 : gmap string string) :
  (forall file, d1 !! join (distDir projectRoot) file = d2 !! join (distDir projectRoot) file) ->
  combined_text projectRoot d1 = combined_text projectRoot d2.
Proof.
  intros Hsame. unfold combined_text.
  generalize (banner) as acc. generalize files as l.
  induction l as [|file l IH]; intros acc; [reflexivity|].
  simpl. rewrite Hsame. apply IH.
Qed.

(** The text the script writes depends on the decoder and on the files
    other than the target, and on nothing else. *)
Lemma snapshot_agree (projectRoot : string) (m m' : Machine) :
  decode m' = decode m ->
  (forall path, path <> targetPath projectRoot -> disk m' !! path = disk m !! path) ->
  snapshot projectRoot m' = snapshot projectRoot m.
Proof.
  intros Hdecode Hsame. unfold snapshot.
  rewrite (Hsame _ (targetPath_ne_sourcePath projectRoot)).
  rewrite (Hsame _ (targetPath_ne_indexPath projectRoot)).
  rewrite (combined_text_agree projectRoot (texts m') (texts m)); [reflexivity|].
  intros file. unfold texts. rewrite !lookup_fmap, Hdecode.
  rewrite (Hsame _ (targetPath_ne_listed projectRoot file)). reflexivity.
Qed.

Lemma sound_writable (path : string) (m : Machine) : sound m -> writable path m.
Proof.
  intros [Hw [_ Hres]]. split.
  - rewrite Hw. apply not_elem_of_empty.
  - rewrite Hres. apply lookup_empty.
Qed.

Lemma sound_readable (path : string) (m : Machine) : sound m -> path ∉ unreadable m.
Proof. intros [_ [Hr _]]. rewrite Hr. apply not_elem_of_empty. Qed.

Lemma copy_types_sound_run (projectRoot : string) (m : Machine) :
  sound m ->
  snd (copy_types projectRoot m) = RanToEnd /\
  disk (fst (copy_types projectRoot m))
    = <[targetPath projectRoot := snapshot projectRoot m]> (disk m) /\
  sound (fst (copy_types projectRoot m)) /\
  decode (fst (copy_types projectRoot m)) = decode m.
Proof.
  intros Hsound.
  destruct (copy_types_outcome projectRoot m) as [Hw' [Hr' [Hres' [Hdec' _]]]].
  assert (Hsound' : sound (fst (copy_types projectRoot m))).
  { destruct Hsound as [Hw [Hr Hres]].
    split; [rewrite Hw'; exact Hw | split; [rewrite Hr'; exact Hr | rewrite Hres'; exact Hres]]. }
  pose proof (sound_writable (targetPath projectRoot) m Hsound) as Hwt.
  unfold snapshot.
  destruct (disk m !! sourcePath projectRoot) as [bundle|] eqn:Hsrc.
  - destruct (copy_types_bundle_run projectRoot bundle m Hsrc
                (sound_readable _ m Hsound) Hwt) as [H1 H2].
    repeat split; assumption || apply Hsound'.
  - destruct (disk m !! indexPath projectRoot) as [index|] eqn:Hidx.
    + destruct (copy_types_regenerate_run projectRoot index m Hsrc Hidx
                  (fun file _ _ => sound_readable _ m Hsound) Hwt) as [H1 H2].
      repeat split; assumption || apply Hsound'.
    + destruct (copy_types_stub_run projectRoot m Hsrc Hidx Hwt) as [H1 H2].
      repeat split; assumption || apply Hsound'.
Qed.

Lemma sound_checkout (files_on_disk : gmap string string) : sound (checkout files_on_disk).
Proof. repeat split. Qed.

(** X11.  The script writes one file only: every path other than the
    target holds after the run what it held before, on every machine and
    however the run ends. *)
Theorem copy_types_touches_only_target (projectRoot : string) (m : Machine)
    (path : string) :
  path <> targetPath projectRoot ->
  disk (fst (copy_types projectRoot m)) !! path = disk m !! path.
Proof.
  intros Hpath.
  destruct (copy_types_outcome projectRoot m)
    as [_ [_ [_ [_ [[_ [_ [[content ->] _]]]
                   |[_ [_ [-> |[_ [remains [_ ->]]]]]]]]]]].
  - apply lookup_insert_ne. congruence.
  - reflexivity.
  - destruct remains as [text|]; simpl.
    + apply lookup_insert_ne. congruence.
    + apply lookup_delete_ne. congruence.
Qed.

Lemma copy_types_touches_only_target_witness :
  disk (fst (copy_types "/app" checkout_with_sources)) !! indexPath "/app"
    = disk checkout_with_sources !! indexPath "/app".
Proof.
  apply (copy_types_touches_only_target "/app" checkout_with_sources (indexPath "/app")).
  apply targetPath_ne_indexPath.
Defined.



(** X13.  When no call throws, the run always reaches its end, and the
    files after it are the files before it with the target replaced by
    the snapshot: the bundle, or else the regenerated text, or else the
    stub. *)
Theorem copy_types_sound_writes_snapshot (projectRoot : string) (m : Machine) :
  sound m ->
  snd (copy_types projectRoot m) = RanToEnd /\
  disk (fst (copy_types projectRoot m))
    = <[targetPath projectRoot := snapshot projectRoot m]> (disk m).
Proof.
  intros Hsound.
  destruct (copy_types_sound_run projectRoot m Hsound) as [H1 [H2 _]].
  split; assumption.
Qed.

Lemma copy_types_sound_writes_snapshot_witness :
  snd (copy_types "/app" checkout_with_sources) = RanToEnd /\
  disk (fst (copy_types "/app" checkout_with_sources))
    = <[targetPath "/app" := snapshot "/app" checkout_with_sources]>
        (disk checkout_with_sources).
Proof.
  apply (copy_types_sound_writes_snapshot "/app" checkout_with_sources).
  apply sound_checkout.
Defined.



(** X15.  When no call throws, running the script again changes no file:
    the second run reads the same sources and writes the same text. *)
Theorem copy_types_idempotent (projectRoot : string) (m : Machine) :
  sound m ->
  disk (fst (copy_types projectRoot (fst (copy_types projectRoot m))))
    = disk (fst (copy_types projectRoot m)).
Proof.
  intros Hsound.
  destruct (copy_types_sound_run projectRoot m Hsound) as [_ [Hdisk [Hsound1 Hdec]]].
  destruct (copy_types_sound_run projectRoot _ Hsound1) as [_ [Hdisk2 _]].
  rewrite Hdisk2.
  rewrite (snapshot_agree projectRoot m (fst (copy_types projectRoot m)) Hdec).
  - rewrite Hdisk. apply insert_insert_eq.
  - intros path Hpath. rewrite Hdisk. apply lookup_insert_ne. congruence.
Qed.

Lemma copy_types_idempotent_witness :
  disk (fst (copy_types "/app" (fst (copy_types "/app" checkout_with_sources))))
    = disk (fst (copy_types "/app" checkout_with_sources)).
Proof.
  apply (copy_types_idempotent "/app" checkout_with_sources).
  apply sound_checkout.
Defined.

(** ** The lines of a declaration file *)

Lemma append_nil_l (a : string) : EmptyString ++ a = a.
Proof. reflexivity. Qed.

Lemma append_cons (c : ascii) (a b : string) : String c a ++ b = String c (a ++ b).
Proof. reflexivity. Qed.

Lemma append_nil_r (a : string) : a ++ EmptyString = a.
Proof.
  induction a as [|x a IH]; [reflexivity|].
  rewrite append_cons, IH. reflexivity.
Qed.

Lemma length_append (a b : string) :
  String.length (a ++ b) = String.length a + String.length b.
Proof.
  induction a as [|x a IH]; [reflexivity|].
  rewrite append_cons. simpl. rewrite IH. reflexivity.
Qed.

Lemma string_length_ind (P : string -> Prop) :
  (forall s, (forall t, String.length t < String.length s -> P t) -> P s) ->
  forall s, P s.
Proof.
  intros Hstep.
  assert (H : forall n s, String.length s < n -> P s).
  { induction n as [|n IH]; intros s Hs; [lia|].
    apply Hstep. intros t Ht. apply IH. lia. }
  intros s. apply (H (S (String.length s))). lia.
Qed.

Lemma join_lines_cons (line term : string) (ls : list (string * string)) :
  join_lines ((line, term) :: ls) = line ++ term ++ join_lines ls.
Proof. reflexivity. Qed.

(** *** Terminators *)

Lemma terminator_Some (s term after : string) :
  terminator s = Some (term, after) -> is_terminator term /\ s = term ++ after.
Proof.
  unfold is_terminator, LF, CR, LS, PS.
  destruct s as [|c rest]; [discriminate|]. cbn [terminator].
  destruct (Ascii.eqb c (ascii_of_nat 10)) eqn:H10.
  - apply Ascii.eqb_eq in H10. subst c. intros [= <- <-]. split; [left|]; reflexivity.
  - destruct (Ascii.eqb c (ascii_of_nat 13)) eqn:H13.
    + apply Ascii.eqb_eq in H13. subst c. intros [= <- <-].
      split; [right; left|]; reflexivity.
    + cbn [orb]. destruct rest as [|c1 [|c2 rest2]]; try discriminate.
      destruct (Ascii.eqb c (ascii_of_nat 226)) eqn:H226; [|discriminate].
      destruct (Ascii.eqb c1 (ascii_of_nat 128)) eqn:H128; [|discriminate].
      apply Ascii.eqb_eq in H226, H128. subst c c1. cbn [andb].
      destruct (Ascii.eqb c2 (ascii_of_nat 168)) eqn:H168.
      * apply Ascii.eqb_eq in H168. subst c2. intros [= <- <-].
        split; [right; right; left|]; reflexivity.
      * destruct (Ascii.eqb c2 (ascii_of_nat 169)) eqn:H169; [|discriminate].
        apply Ascii.eqb_eq in H169. subst c2. intros [= <- <-].
        split; [right; right; right|]; reflexivity.
Qed.

Lemma terminator_of_term (term rest : string) :
  is_terminator term -> terminator (term ++ rest) = Some (term, rest).
Proof. intros [->|[->|[->| ->]]]; reflexivity. Qed.

Lemma split_lines_unfold (s : string) :
  split_lines s =
  match terminator s with
  | Some (term, after) => (EmptyString, term) :: split_lines after
  | None =>
      match s with
      | EmptyString => [(EmptyString, EmptyString)]
      | String c rest => carry_char c (split_lines rest)
      end
  end.
Proof.
  destruct s as [|c rest]; [reflexivity|]. cbn [split_lines terminator].
  destruct (Ascii.eqb c (ascii_of_nat 10) || Ascii.eqb c (ascii_of_nat 13))%bool;
    [reflexivity|].
  destruct rest as [|c1 [|c2 rest2]]; try reflexivity.
  destruct (Ascii.eqb c (ascii_of_nat 226) && Ascii.eqb c1 (ascii_of_nat 128) &&
            (Ascii.eqb c2 (ascii_of_nat 168) || Ascii.eqb c2 (ascii_of_nat 169)))%bool;
    reflexivity.
Qed.

Lemma split_lines_not_nil (s : string) : split_lines s <> [].
Proof.
  rewrite split_lines_unfold.
  destruct (terminator s) as [[term after]|]; [discriminate|].
  destruct s as [|c rest]; [discriminate|].
  unfold carry_char. destruct (split_lines rest) as [|[line term] more]; discriminate.
Qed.

(** Splitting a text into lines and putting the lines back gives the
    text. *)
Lemma join_split_lines (s : string) : join_lines (split_lines s) = s.
Proof.
  induction s as [s IH] using string_length_ind.
  rewrite split_lines_unfold.
  destruct (terminator s) as [[term after]|] eqn:Ht.
  - destruct (terminator_Some s term after Ht) as [Hterm ->].
    rewrite join_lines_cons, append_nil_l, IH; [reflexivity|].
    rewrite length_append.
    destruct Hterm as [->|[->|[->| ->]]]; simpl; lia.
  - destruct s as [|c rest]; [reflexivity|].
    unfold carry_char.
    destruct (split_lines rest) as [|[line term] more] eqn:Hrest.
    + exfalso. exact (split_lines_not_nil rest Hrest).
    + rewrite join_lines_cons, append_cons, <- join_lines_cons, <- Hrest, IH;
        [reflexivity | simpl; lia].
Qed.

(** Whether a terminator starts at a character of a line does not
    depend on the text after the line, when that text is empty or starts
    with a terminator itself. *)
Lemma terminator_lookahead (c : ascii) (line t : string) :
  clean_start t ->
  (terminator (String c (line ++ t)) = None <->
   terminator (String c (line ++ EmptyString)) = None).
Proof.
  intros Hclean. rewrite append_nil_r.
  destruct Hclean as [->|[term [rest [Hterm ->]]]]; [rewrite append_nil_r; reflexivity|].
  cbn [terminator].
  destruct (Ascii.eqb c (ascii_of_nat 10) || Ascii.eqb c (ascii_of_nat 13))%bool;
    [split; discriminate|].
  destruct line as [|c1 [|c2 line']].
  - rewrite append_nil_l.
    destruct Hterm as [->|[->|[->| ->]]]; unfold LF, CR, LS, PS;
      rewrite ?append_cons, ?append_nil_l;
      destruct rest as [|r rest]; try reflexivity;
      match goal with
      | |- context [(?a && Ascii.eqb ?x ?y && ?b)%bool] =>
          change (Ascii.eqb x y) with false; rewrite andb_false_r
      end; reflexivity.
  - rewrite append_cons, append_nil_l.
    destruct Hterm as [->|[->|[->| ->]]]; unfold LF, CR, LS, PS;
      rewrite ?append_cons, ?append_nil_l;
      match goal with
      | |- context [(?a && (Ascii.eqb ?x ?y || Ascii.eqb ?x ?z))%bool] =>
          change (Ascii.eqb x y) with false; change (Ascii.eqb x z) with false;
          rewrite andb_false_r
      end; reflexivity.
  - rewrite !append_cons.
    match goal with
    | |- context [if ?b then _ else _] => destruct b
    end; [split; discriminate | reflexivity].
Qed.

Lemma unbroken_clean (line t : string) :
  clean_start t -> unbroken line t = unbroken line EmptyString.
Proof.
  intros Hclean. induction line as [|c line IH]; [reflexivity|].
  cbn [unbroken]. rewrite IH.
  pose proof (terminator_lookahead c line t Hclean) as Hlook.
  destruct (terminator (String c (line ++ t))) as [p|];
    destruct (terminator (String c (line ++ EmptyString))) as [q|]; try reflexivity.
  - destruct Hlook as [_ Hlook]. discriminate (Hlook eq_refl).
  - destruct Hlook as [Hlook _]. discriminate (Hlook eq_refl).
Qed.

Lemma split_lines_app_line (line t : string) :
  unbroken line t = true ->
  split_lines (line ++ t) =
  match split_lines t with
  | (first, term) :: more => (line ++ first, term) :: more
  | [] => []
  end.
Proof.
  induction line as [|c line IH]; intros Hline.
  - rewrite append_nil_l.
    destruct (split_lines t) as [|[first term] more]; reflexivity.
  - cbn [unbroken] in Hline.
    destruct (terminator (String c (line ++ t))) as [p|] eqn:Ht; [discriminate|].
    rewrite append_cons, split_lines_unfold, Ht, (IH Hline).
    destruct (split_lines t) as [|[first term] more] eqn:Hs.
    + exfalso. exact (split_lines_not_nil t Hs).
    + reflexivity.
Qed.

Lemma well_split_clean (term : string) (rest : list (string * string)) :
  match rest with
  | [] => term = EmptyString
  | _ :: _ => is_terminator term /\ well_split rest
  end ->
  clean_start (term ++ join_lines rest).
Proof.
  destruct rest as [|next rest].
  - intros ->. left. reflexivity.
  - intros [Hterm _]. right. exists term, (join_lines (next :: rest)).
    split; [exact Hterm | reflexivity].
Qed.

Lemma split_lines_well_split (s : string) : well_split (split_lines s).
Proof.
  induction s as [s IH] using string_length_ind.
  rewrite split_lines_unfold.
  destruct (terminator s) as [[term after]|] eqn:Ht.
  - destruct (terminator_Some s term after Ht) as [Hterm ->].
    assert (Hafter : well_split (split_lines after)).
    { apply IH. rewrite length_append.
      destruct Hterm as [->|[->|[->| ->]]]; simpl; lia. }
    split; [reflexivity|].
    destruct (split_lines after) as [|next more] eqn:Hs.
    + exfalso. exact (split_lines_not_nil after Hs).
    + split; [exact Hterm | exact Hafter].
  - destruct s as [|c rest]; [split; reflexivity|].
    assert (Hrest : well_split (split_lines rest)) by (apply IH; simpl; lia).
    pose proof (join_split_lines rest) as Hjoin.
    unfold carry_char.
    destruct (split_lines rest) as [|[line term] more] eqn:Hs.
    + exfalso. exact (split_lines_not_nil rest Hs).
    + destruct Hrest as [Hline Hmore]. split; [|exact Hmore].
      unfold no_terminator in *. cbn [unbroken]. rewrite Hline.
      rewrite join_lines_cons in Hjoin. rewrite <- Hjoin in Ht.
      apply (terminator_lookahead c line _ (well_split_clean term more Hmore)) in Ht.
      rewrite Ht. reflexivity.
Qed.

(** Lines of the right shape are what splitting their text gives back. *)
Lemma split_join_lines (ls : list (string * string)) :
  well_split ls -> split_lines (join_lines ls) = ls.
Proof.
  induction ls as [|[line term] rest IH]; [intros []|].
  intros [Hline Hrest]. rewrite join_lines_cons.
  pose proof (well_split_clean term rest Hrest) as Hclean.
  rewrite split_lines_app_line
    by (rewrite (unbroken_clean _ _ Hclean); exact Hline).
  destruct rest as [|next rest'].
  - subst term.
    change (split_lines (EmptyString ++ join_lines []))
      with [(EmptyString, EmptyString)].
    cbv beta iota. rewrite append_nil_r. reflexivity.
  - destruct Hrest as [Hterm Hwell].
    rewrite split_lines_unfold, (terminator_of_term _ _ Hterm), (IH Hwell).
    rewrite append_nil_r. reflexivity.
Qed.

Lemma well_split_lines (ls : list (string * string)) :
  well_split ls -> Forall (fun lt => no_terminator (fst lt) = true) ls.
Proof.
  induction ls as [|[line term] rest IH]; [intros []|].
  intros [Hline Hrest]. constructor; [exact Hline|].
  destruct rest as [|next rest']; [constructor|].
  destruct Hrest as [_ Hwell]. exact (IH Hwell).
Qed.

(** Blanking lines one by one. *)
Lemma blank_lines_split (matched : string -> bool) (content : string) :
  split_lines (blank_lines matched content) =
  map (fun lt => (if matched (fst lt) then EmptyString else fst lt, snd lt))
      (split_lines content).
Proof.
  unfold blank_lines. apply split_join_lines.
  pose proof (split_lines_well_split content) as Hwell.
  induction (split_lines content) as [|[line term] rest IH]; [exact Hwell|].
  destruct Hwell as [Hline Hrest]. simpl. split.
  - destruct (matched line); [reflexivity | exact Hline].
  - destruct rest as [|next rest']; [exact Hrest|].
    destruct Hrest as [Hterm Hwell]. split; [exact Hterm|]. exact (IH Hwell).
Qed.

(** ** The lines the two replacements match *)

Lemma strip_prefix_spec (p s r : string) :
  strip_prefix p s = Some r <-> s = p ++ r.
Proof.
  revert s. induction p as [|a p IH]; intros s.
  - simpl. split; [intros [= ->]; reflexivity | intros ->; reflexivity].
  - destruct s as [|b s]; simpl.
    + split; [discriminate | rewrite append_cons; discriminate].
    + rewrite append_cons. destruct (Ascii.eqb_spec a b) as [->|Hne].
      * rewrite IH. split; [intros ->; reflexivity | intros [= ->]; reflexivity].
      * split; [discriminate | intros [= <- _]; contradiction].
Qed.

Lemma last_is_spec (c : ascii) (s : string) :
  last_is c s = true <-> exists b, s = b ++ String c EmptyString.
Proof.
  induction s as [|a s IH].
  - simpl. split; [discriminate|]. intros [[|x b] H]; discriminate H.
  - destruct s as [|a' s'].
    + simpl. split.
      * intros H. apply Ascii.eqb_eq in H. subst a. exists EmptyString. reflexivity.
      * intros [[|x b] H].
        -- injection H as ->. apply Ascii.eqb_refl.
        -- rewrite append_cons in H. injection H as _ H.
           destruct b; discriminate H.
    + change (last_is c (String a (String a' s'))) with (last_is c (String a' s')).
      rewrite IH. split.
      * intros [b H]. exists (String a b). rewrite append_cons, H. reflexivity.
      * intros [[|x b] H]; [discriminate H|].
        rewrite append_cons in H. injection H as _ H. exists b. exact H.
Qed.

Lemma some_then_semicolon_spec (t : string) :
  some_then_semicolon t = true <-> exists b, b <> EmptyString /\ t = b ++ ";".
Proof.
  unfold some_then_semicolon. rewrite andb_true_iff, Nat.leb_le, last_is_spec.
  split.
  - intros [Hlen [b ->]]. exists b. split; [|reflexivity].
    intros ->. simpl in Hlen. lia.
  - intros [b [Hb ->]]. split; [|exists b; reflexivity].
    rewrite length_append. destruct b; [contradiction|]. simpl. lia.
Qed.

Lemma from_clause_within_eq (s : string) :
  from_clause_within s =
  (match strip_prefix " from " s with
   | Some t => some_then_semicolon t
   | None => false
   end
   || match s with
      | String _ rest => from_clause_within rest
      | EmptyString => false
      end)%bool.
Proof. destruct s; reflexivity. Qed.

Lemma from_clause_within_spec (s : string) :
  from_clause_within s = true <->
  exists a b, b <> EmptyString /\ s = a ++ " from " ++ b ++ ";".
Proof.
  split.
  - induction s as [|x s IH]; rewrite from_clause_within_eq, orb_true_iff.
    + intros [H|H]; discriminate H.
    + intros [H|H].
      * destruct (strip_prefix " from " (String x s)) as [t|] eqn:Ht; [|discriminate H].
        apply strip_prefix_spec in Ht.
        apply some_then_semicolon_spec in H. destruct H as [b [Hb ->]].
        exists EmptyString, b. split; [exact Hb | exact Ht].
      * destruct (IH H) as [a [b [Hb ->]]].
        exists (String x a), b. split; [exact Hb | reflexivity].
  - intros [a [b [Hb ->]]].
    induction a as [|x a IH]; rewrite from_clause_within_eq, orb_true_iff.
    + left.
      assert (Ht : strip_prefix " from " (EmptyString ++ " from " ++ b ++ ";")
                   = Some (b ++ ";")) by (apply strip_prefix_spec; reflexivity).
      rewrite Ht. apply some_then_semicolon_spec. exists b. split; [exact Hb | reflexivity].
    + right. rewrite append_cons. exact IH.
Qed.

Lemma import_line_spec (line : string) :
  import_line line = true <-> no_terminator line = true /\ import_form line.
Proof.
  unfold import_line, import_form. rewrite andb_true_iff.
  split; intros [Hline H]; (split; [exact Hline|]).
  - destruct (strip_prefix "import " line) as [[|x rest]|] eqn:Hp; try discriminate.
    apply strip_prefix_spec in Hp.
    apply from_clause_within_spec in H. destruct H as [a [b [Hb ->]]].
    exists (String x a), b. split; [discriminate|]. split; [exact Hb | exact Hp].
  - destruct H as [a [b [Ha [Hb ->]]]].
    destruct a as [|x a]; [contradiction|].
    assert (Hp : strip_prefix "import " ("import " ++ String x a ++ " from " ++ b ++ ";")
                 = Some (String x (a ++ " from " ++ b ++ ";")))
      by (apply strip_prefix_spec; reflexivity).
    rewrite Hp. apply from_clause_within_spec. exists a, b. split; [exact Hb | reflexivity].
Qed.

Lemma export_star_line_spec (line : string) :
  export_star_line line = true <-> no_terminator line = true /\ export_star_form line.
Proof.
  unfold export_star_line, export_star_form. rewrite andb_true_iff.
  split; intros [Hline H]; (split; [exact Hline|]).
  - destruct (strip_prefix "export * from " line) as [t|] eqn:Hp; [|discriminate].
    apply strip_prefix_spec in Hp.
    apply some_then_semicolon_spec in H. destruct H as [b [Hb ->]].
    exists b. split; [exact Hb | exact Hp].
  - destruct H as [b [Hb ->]].
    assert (Hp : strip_prefix "export * from " ("export * from " ++ b ++ ";")
                 = Some (b ++ ";")) by (apply strip_prefix_spec; reflexivity).
    rewrite Hp. apply some_then_semicolon_spec. exists b. split; [exact Hb | reflexivity].
Qed.

(** What a replacement that blanks whole lines does, line by line: the
    terminators stay, a line of the form is emptied, any other line is
    kept. *)
Lemma blank_lines_by_form (matched : string -> bool) (form : string -> Prop)
    (content : string) :
  (forall line, matched line = true <-> no_terminator line = true /\ form line) ->
  Forall2 (fun before after : string * string =>
             snd after = snd before /\
             ((form (fst before) /\ fst after = EmptyString) \/
              (~ form (fst before) /\ fst after = fst before)))
          (split_lines content) (split_lines (blank_lines matched content)).
Proof.
  intros Hspec. rewrite blank_lines_split.
  pose proof (well_split_lines _ (split_lines_well_split content)) as Hlines.
  induction Hlines as [|[line term] rest Hline _ IH]; [constructor|].
  cbn [map fst snd] in *. constructor; [|exact IH].
  cbn [fst snd]. split; [reflexivity|].
  destruct (matched line) eqn:Hm.
  - left. apply Hspec in Hm. split; [apply Hm | reflexivity].
  - right. split; [|reflexivity].
    intros Hform. assert (Hyes : matched line = true) by (apply Hspec; split; assumption).
    rewrite Hyes in Hm. discriminate Hm.
Qed.

(** X19.  [content.replace(/^import .+ from .+;$/gm, '')], line by line,
    the lines being those that LF, CR, U+2028 and U+2029 delimit: every
    terminator stays; a line [import A from B;] with [A] and [B] not
    empty is emptied (a type-only import too); every other line is kept
    as it is (an import without [from] too). *)
Theorem import_replacement_by_line (content : string) :
  Forall2 (fun before after : string * string =>
             snd after = snd before /\
             ((import_form (fst before) /\ fst after = EmptyString) \/
              (~ import_form (fst before) /\ fst after = fst before)))
          (split_lines content) (split_lines (blank_lines import_line content)).
Proof. apply blank_lines_by_form. apply import_line_spec. Qed.

(** X20.  [content.replace(/^export \* from .+;$/gm, '')], line by line:
    every terminator stays; a line [export * from B;] with [B] not empty
    is emptied; every other line is kept as it is (a re-export of chosen
    names or under a namespace too). *)
Theorem export_star_replacement_by_line (content : string) :
  Forall2 (fun before after : string * string =>
             snd after = snd before /\
             ((export_star_form (fst before) /\ fst after = EmptyString) \/
              (~ export_star_form (fst before) /\ fst after = fst before)))
          (split_lines content) (split_lines (blank_lines export_star_line content)).
Proof. apply blank_lines_by_form. apply export_star_line_spec. Qed.

(** The replacements on texts with a wide separator: the import before
    U+2028 is a line of its own and is emptied; a separator inside what
    would be the [.+] parts prevents the match. *)
Example replacements_at_wide_separators :
  inline_content ("import a from b;" ++ LS ++ "foo" ++ LF) = LS ++ "foo" ++ LF /\
  inline_content ("import a" ++ LS ++ "b from c;") = "import a" ++ LS ++ "b from c;" /\
  inline_content ("export * from a" ++ PS ++ "b;") = "export * from a" ++ PS ++ "b;" /\
  import_line ("import a" ++ LF ++ "b from c;") = false /\
  inline_content ("import type { Op } from './types';" ++ CR ++ LF ++
                  "export * as ns from './x';" ++ LF ++ "export * from './y';")
    = CR ++ LF ++ "export * as ns from './x';" ++ LF.
Proof. repeat split; vm_compute; reflexivity. Qed.

Lemma blank_lines_unmatched (matched : string -> bool) (content : string) :
  Forall (fun lt => matched (fst lt) = false) (split_lines content) ->
  blank_lines matched content = content.
Proof.
  intros Hnone. unfold blank_lines.
  rewrite <- (join_split_lines content) at 2. f_equal.
  induction Hnone as [|[line term] rest Hline _ IH]; [reflexivity|].
  simpl in *. rewrite Hline, IH. reflexivity.
Qed.

(** X16.  The two replacements return unchanged a text none of whose
    lines is [import A from B;] or [export * from B;]. *)
Theorem inline_content_unmatched (content : string) :
  Forall (fun lt => ~ import_form (fst lt) /\ ~ export_star_form (fst lt))
         (split_lines content) ->
  inline_content content = content.
Proof.
  intros Hnone. unfold inline_content.
  rewrite (blank_lines_unmatched import_line content).
  - apply blank_lines_unmatched.
    eapply List.Forall_impl; [|exact Hnone]. intros lt [_ H].
    destruct (export_star_line (fst lt)) eqn:He; [|reflexivity].
    exfalso. apply H. apply export_star_line_spec in He. apply He.
  - eapply List.Forall_impl; [|exact Hnone]. intros lt [H _].
    destruct (import_line (fst lt)) eqn:Hi; [|reflexivity].
    exfalso. apply H. apply import_line_spec in Hi. apply Hi.
Qed.

Lemma not_import_form_without_from (line : string) :
  from_clause_within line = false -> ~ import_form line.
Proof.
  intros Hnone [a [b [Ha [Hb ->]]]].
  assert (Hyes : from_clause_within ("import " ++ a ++ " from " ++ b ++ ";") = true).
  { apply from_clause_within_spec. exists ("import " ++ a), b.
    split; [exact Hb|]. rewrite append_assoc. reflexivity. }
  rewrite Hyes in Hnone. discriminate Hnone.
Qed.

Lemma not_export_star_form_without_prefix (line : string) :
  strip_prefix "export * from " line = None -> ~ export_star_form line.
Proof.
  intros Hnone [b [_ Hline]].
  apply strip_prefix_spec in Hline. rewrite Hline in Hnone. discriminate Hnone.
Qed.

Lemma inline_content_unmatched_witness :
  inline_content ("export declare const op: Op;" ++ CR ++ LF ++ "import './side-effect';" ++ LF)
  = "export declare const op: Op;" ++ CR ++ LF ++ "import './side-effect';" ++ LF.
Proof.
  apply (inline_content_unmatched
           ("export declare const op: Op;" ++ CR ++ LF ++ "import './side-effect';" ++ LF)).
  repeat constructor;
    (apply not_import_form_without_from; reflexivity) ||
    (apply not_export_star_form_without_prefix; reflexivity).
Defined.

Lemma blank_twice (line term : string) :
  (fun lt : string * string =>
     (if export_star_line (fst lt) then EmptyString else fst lt, snd lt))
    ((fun lt : string * string =>
        (if import_line (fst lt) then EmptyString else fst lt, snd lt))
       ((fun lt : string * string =>
           (if export_star_line (fst lt) then EmptyString else fst lt, snd lt))
          ((fun lt : string * string =>
              (if import_line (fst lt) then EmptyString else fst lt, snd lt))
             (line, term))))
  = (fun lt : string * string =>
       (if export_star_line (fst lt) then EmptyString else fst lt, snd lt))
      ((fun lt : string * string =>
          (if import_line (fst lt) then EmptyString else fst lt, snd lt))
         (line, term)).
Proof.
  cbn [fst snd].
  destruct (import_line line) eqn:Hi.
  - change (export_star_line EmptyString) with false. cbv beta iota.
    change (import_line EmptyString) with false. cbv beta iota.
    change (export_star_line EmptyString) with false. reflexivity.
  - destruct (export_star_line line) eqn:He.
    + change (import_line EmptyString) with false. cbv beta iota.
      change (export_star_line EmptyString) with false. reflexivity.
    + rewrite Hi, He. reflexivity.
Qed.

Lemma split_inline_content (content : string) :
  split_lines (inline_content content) =
  map (fun lt => (if export_star_line (fst lt) then EmptyString else fst lt, snd lt))
      (map (fun lt => (if import_line (fst lt) then EmptyString else fst lt, snd lt))
           (split_lines content)).
Proof. unfold inline_content. rewrite !blank_lines_split. reflexivity. Qed.

Lemma inline_content_lines (content : string) :
  inline_content content = join_lines (split_lines (inline_content content)).
Proof. symmetry. apply join_split_lines. Qed.

(** X17.  Inlining is idempotent: a text that has been inlined has no
    line left for either replacement. *)
Theorem inline_content_idempotent (content : string) :
  inline_content (inline_content content) = inline_content content.
Proof.
  rewrite (inline_content_lines (inline_content content)).
  rewrite (inline_content_lines content) at 2.
  f_equal. rewrite !split_inline_content.
  rewrite !map_map. apply map_ext. intros [line term]. apply blank_twice.
Qed.

Lemma join_blank_length (matched : string -> bool) (ls : list (string * string)) :
  String.length
    (join_lines (map (fun lt => (if matched (fst lt) then EmptyString else fst lt, snd lt)) ls))
  <= String.length (join_lines ls).
Proof.
  induction ls as [|[line term] rest IH]; [reflexivity|].
  simpl map. rewrite !join_lines_cons, !length_append. cbn [fst snd].
  destruct (matched line); simpl; lia.
Qed.

Lemma blank_lines_length (matched : string -> bool) (content : string) :
  String.length (blank_lines matched content) <= String.length content.
Proof.
  unfold blank_lines.
  rewrite <- (join_split_lines content) at 2. apply join_blank_length.
Qed.

(** X18.  Inlining empties lines and does nothing else: the text keeps
    its line breaks, each of the same kind and in the same order, and it
    never gets longer. *)
Theorem inline_content_keeps_breaks (content : string) :
  map snd (split_lines (inline_content content)) = map snd (split_lines content) /\
  String.length (inline_content content) <= String.length content.
Proof.
  split.
  - rewrite split_inline_content, !map_map. reflexivity.
  - unfold inline_content. etransitivity; apply blank_lines_length.
Qed.

(** ** The shape of the regenerated text *)

Lemma fold_left_append_prefix (d : gmap string string) (dir : string) (l : list string) :
  forall acc : string,
    exists tail,
      fold_left (fun acc file =>
                   match d !! join dir file with
                   | Some content => acc ++ inline_content content ++ LF ++ LF
                   | None => acc
                   end) l acc = acc ++ tail.
Proof.
  induction l as [|file l IH]; intros acc.
  - exists EmptyString. simpl. rewrite append_nil_r. reflexivity.
  - simpl. destruct (d !! join dir file) as [content|].
    + destruct (IH (acc ++ inline_content content ++ LF ++ LF)) as [tail ->].
      eexists. rewrite append_assoc. reflexivity.
    + apply IH.
Qed.

(** X21.  The regenerated text always starts with the banner comment, and
    when [index.d.ts] exists it ends with that file, inlined and followed
    by two line feeds: [index.d.ts] is the last of the listed files.  [d]
    gives the text of each file. *)
Theorem combined_text_shape (projectRoot : string) (d : gmap string string) :
  (exists tail, combined_text projectRoot d = banner ++ tail) /\
  (forall index : string,
     d !! indexPath projectRoot = Some index ->
     exists front,
       combined_text projectRoot d = front ++ inline_content index ++ LF ++ LF).
Proof.
  split.
  - unfold combined_text. apply fold_left_append_prefix.
  - intros index Hidx. unfold combined_text.
    change files with
      (["types.d.ts"; "column.d.ts"; "context.d.ts"; "sql.d.ts"; "subquery-builder.d.ts";
        "policy-builder.d.ts"; "validation.d.ts"; "composition.d.ts"] ++ ["index.d.ts"])%list.
    rewrite fold_left_app. cbn [fold_left].
    rewrite <- indexPath_in_distDir, Hidx.
    eexists. reflexivity.
Qed.

Lemma combined_text_shape_witness :
  exists front,
    combined_text "/app" (texts checkout_with_sources)
      = front ++ inline_content ("import { Op } from './types';" ++ LF ++
                                 "export * from './types';" ++ LF ++
                                 "export declare const op: Op;" ++ LF) ++ LF ++ LF.
Proof.
  apply (combined_text_shape "/app" (texts checkout_with_sources)).
  reflexivity.
Defined.
